(** * R2X: the PLEXOS parser ([src/r2x/parser/plexos.py])

    A shallow embedding of the property-resolution and entity-construction
    pipeline of [PlexosParser], and the properties of it that the
    specification states.

    Conventions of the embedding:
    - a polars [DataFrame] is the list of its rows, in row order;
    - a nullable column holds an [option]; a boolean polars expression
      evaluates, per row, to an [option bool] combined with Kleene's
      connectives, and [DataFrame.filter] keeps the rows on which the
      expression is [Some true];
    - a Python [dict] with string keys is a [gmap string _];
    - a method that can raise returns a [result]; the messages given to
      [logger.warning] are collected in a list. *)

From Stdlib Require Import ZArith QArith Lia Ascii String.
From stdpp Require Import gmap strings pretty list fin_maps.

Local Open Scope Z_scope.
Local Open Scope string_scope.
Local Open Scope list_scope.

(** ** Exceptions and results *)

(** The three places that raise [ModelError], by their message. *)
Inductive model_error : Type :=
  | RequiredModelNameNotFound
  | MultipleModelsWithTheSameName (model_name : string)
  | NoValidScenarios.

Inductive exn : Type :=
  | ModelError (msg : model_error)
  | AssertionError
  | AttributeError
  | KeyError (key : string)
  | IndexError
  | TypeError
  | ValueError
  | ISNotStored (name : string)
  | DuplicateError
  | PintError.

(** The relative path a text annotation is read as: a [PureWindowsPath]
    when the text holds a backslash, a [Path] otherwise. *)
Inductive relative_path : Type :=
  | PureWindowsPath (fpath_text : string)
  | Path (fpath_text : string).

(** The calls of [logger.warning], by their message and arguments. *)
Inductive warning : Type :=
  | ModelNotFoundOnTheSystem (model_name : string)
  | ModelMapNotFound (generator_name : string) (fuel_type : option string)
  | MissingRequiredFields (name : string)
  | ZeroCapacity (battery_name : string)
  | MoreThanOneRow (property_name : string)
  | FileNotFound (path : relative_path)
  | DataFileNotSupported (path : relative_path)
  | PartialTimeSlices (property_name : string)
  | HourSlicesNotSupported (property_name : string).

Inductive result (A : Type) : Type :=
  | Ok (a : A)
  | Raise (e : exn).
Arguments Ok {A} a.
Arguments Raise {A} e.

#[global] Instance result_ret : MRet result := fun A a => Ok a.
#[global] Instance result_bind : MBind result := fun A B k c =>
  match c with
  | Ok a => k a
  | Raise e => Raise e
  end.

Definition raises {A : Type} (c : result A) : Prop :=
  match c with Ok _ => False | Raise _ => True end.

(** ** Kleene connectives of polars' boolean expressions *)

Module Kleene.

Definition and (a b : option bool) : option bool :=
  match a, b with
  | Some false, _ | _, Some false => Some false
  | Some true, Some true => Some true
  | _, _ => None
  end.

Definition or (a b : option bool) : option bool :=
  match a, b with
  | Some true, _ | _, Some true => Some true
  | Some false, Some false => Some false
  | _, _ => None
  end.

Definition not (a : option bool) : option bool := negb <$> a.

End Kleene.

(** ** The property table *)

(** One row of [DEFAULT_QUERY_COLUMNS_SCHEMA].  The object id and the
    object name are the keys of [t_object] and are never null; every
    other column is nullable. *)
Record Row : Type := mkRow {
  parent_class_id : option Z;
  parent_object_id : option Z;
  parent_class_name : option string;
  child_class_id : option Z;
  child_class_name : option string;
  category : option string;
  object_id : Z;
  name : string;
  property_name : option string;
  property_unit : option string;
  property_value : option Q;
  band : option Z;
  date_to : option string;
  date_from : option string;
  memo : option string;
  text : option string;
  scenario : option string
}.

(** A polars expression over the columns of the table. *)
Definition Expr : Type := Row -> option bool.

(** [DataFrame.filter]: rows on which the expression is null are dropped. *)
Definition df_filter (e : Expr) (df : list Row) : list Row :=
  filter (fun r => e r = Some true) df.

(** [pl.col(c).is_null()] *)
Definition is_null {A : Type} (v : option A) : option bool :=
  Some (match v with None => true | Some _ => false end).

(** [pl.col(c).is_in(values)] on a nullable string column: null on a null
    cell, otherwise membership. *)
Definition is_in (v : option string) (values : list (option string)) : option bool :=
  match v with
  | None => None
  | Some s => Some (bool_decide (Some s ∈ values))
  end.

Definition is_in_names (n : string) (values : list string) : option bool :=
  Some (bool_decide (n ∈ values)).

Section GetModelData.

(** [self.scenarios] ([None] when the attribute was never set) and
    [self.plexos_data]. *)
Variable scenarios : option (list string).
Variable plexos_data : list Row.

Definition scenario_filter (scs : list string) : Expr :=
  fun r => is_in (scenario r) (Some <$> scs).

Definition scenario_specific_data (scs : list string) (data_filter : Expr) : list Row :=
  df_filter (fun r => Kleene.and (data_filter r) (scenario_filter scs r)) plexos_data.

(** The mask built at lines 716-722, over the scenario rows [ssd]. *)
Definition base_case_filter (ssd : list Row) : Expr :=
  fun r =>
    Kleene.or (is_null (scenario r))
      (Kleene.or
         (Kleene.not
            (Kleene.or (is_in_names (name r) (name <$> ssd))
                       (is_in (property_name r) (property_name <$> ssd))))
         (is_null (property_name r))).

Definition _get_model_data (data_filter : Expr) : result (list Row) :=
  match scenarios with
  | None | Some [] => Raise (ModelError NoValidScenarios)
  | Some ((_ :: _) as scs) =>
      let ssd := scenario_specific_data scs data_filter in
      match ssd with
      | [] =>
          Ok (df_filter (fun r => Kleene.and (data_filter r) (is_null (scenario r)))
                plexos_data)
      | _ :: _ =>
          let base_case_data :=
            df_filter (fun r => Kleene.and (data_filter r) (base_case_filter ssd r))
              plexos_data in
          Ok (ssd ++ base_case_data)
      end
  end.

End GetModelData.

(** ** Pivot with first-value aggregation *)



(** The distinct elements of a list, in order of first occurrence. *)
Fixpoint unique {A : Type} `{EqDecision A} (l : list A) : list A :=
  match l with
  | [] => []
  | x :: l' => x :: filter (fun y => y <> x) (unique l')
  end.





(** ** Scenario processing *)

(** The two queries of [_process_scenarios] against the database:
    the object ids of the objects with a given name, and the names of the
    [Scenario] members of a model. *)
Record PlexosDB : Type := mkDB {
  query_object_id : string -> list Z;
  query_valid_scenarios : Z -> list string
}.

(** The attributes [_process_scenarios] sets on the parser, and the log. *)
Record ParserState : Type := mkState {
  model_id : option Z;
  scenarios : option (list string);
  warnings : list warning
}.

Definition set_model_id (i : Z) (st : ParserState) : ParserState :=
  mkState (Some i) (scenarios st) (warnings st).

Definition set_scenarios (l : list string) (st : ParserState) : ParserState :=
  mkState (model_id st) (Some l) (warnings st).

Definition log_warning (w : warning) (st : ParserState) : ParserState :=
  mkState (model_id st) (scenarios st) (warnings st ++ [w]).

(** The outcome ([None] return or exception) and the state it leaves. *)
Definition _process_scenarios (db : PlexosDB) (model_name : option string)
    (st : ParserState) : result unit * ParserState :=
  match model_name with
  | None => (Raise (ModelError RequiredModelNameNotFound), st)
  | Some model_name =>
      let model_id := query_object_id db model_name in
      if decide (1 < length model_id)%nat then
        (Raise (ModelError (MultipleModelsWithTheSameName model_name)), st)
      else
        match model_id with
        | [] => (Ok tt, log_warning (ModelNotFoundOnTheSystem model_name) st)
        | i :: _ =>
            let st := set_model_id i st in
            match query_valid_scenarios db i with
            | [] => (Raise AssertionError, st)
            | (_ :: _) as valid_scenarios => (Ok tt, set_scenarios valid_scenarios st)
            end
        end
  end.

(** [_get_model_data] as the parser calls it, on its own attributes. *)
Definition get_model_data (st : ParserState) (plexos_data : list Row)
    (data_filter : Expr) : result (list Row) :=
  _get_model_data (scenarios st) plexos_data data_filter.

(** ** Attribute values *)

(** What the attribute dictionaries of the builders hold: [None], a
    property value as read (a float), an integer written by a builder, a
    property value multiplied by its resolved unit (a pint quantity), a
    string, a member of [PrimeMoversType] (by its name), or a float NaN
    (the peak of a profile with missing values). *)
Inductive value : Type :=
  | VNone
  | VFloat (x : Q)
  | VInt (n : Z)
  | VQuantity (x : Q) (unit : string)
  | VStr (s : string)
  | VPrimeMover (member : string)
  | VNaN.

Definition is_None (v : value) : bool :=
  match v with VNone => true | _ => false end.

(** The unit registry [r2x.units.ureg] (pint), an external collaborator:
    what [ureg[unit]] gives, and how a quantity behaves under [bool(q)],
    [q > 1] and [q == 0]. *)
Inductive ureg_lookup : Type :=
  | Resolved (truthy : bool)
  | UndefinedUnitError
  | OtherPintError.

Record Pint : Type := mkPint {
  ureg : string -> ureg_lookup;
  quantity_bool : Q -> string -> bool;
  quantity_gt_1 : Q -> string -> result bool;
  quantity_eq_0 : Q -> string -> result bool
}.

(** [bool(v)] *)
Definition truthy (pint : Pint) (v : value) : bool :=
  match v with
  | VNone => false
  | VFloat x => negb (Qeq_bool x 0)
  | VInt n => negb (n =? 0)%Z
  | VQuantity x u => quantity_bool pint x u
  | VStr s => negb (String.eqb s "")
  | VPrimeMover _ => true
  | VNaN => true
  end.

(** [v > 1] *)
Definition gt_1 (pint : Pint) (v : value) : result bool :=
  match v with
  | VFloat x => Ok (negb (Qle_bool x 1))
  | VInt n => Ok (1 <? n)%Z
  | VQuantity x u => quantity_gt_1 pint x u
  | VNaN => Ok false
  | VNone | VStr _ | VPrimeMover _ => Raise TypeError
  end.

(** [v == 0] *)
Definition eq_0 (pint : Pint) (v : value) : result bool :=
  match v with
  | VFloat x => Ok (Qeq_bool x 0)
  | VInt n => Ok (n =? 0)%Z
  | VQuantity x u => quantity_eq_0 pint x u
  | VNone | VStr _ | VPrimeMover _ | VNaN => Ok false
  end.

(** ** The property aggregator *)

(** A record of [generator_data[["band", "property_name", "property_value",
    "property_unit"]].to_dicts()].  The band, the property name and the
    unit are columns of one joined data row and are null together, in
    which case [record["property_unit"].replace] raises ([to_dict]
    below); the value can be null on its own. *)
Module PropertyRecord.
Record t : Type := mk {
  band : Z;
  property_name : string;
  property_value : option Q;
  property_unit : string
}.
End PropertyRecord.
Abbreviation PropertyRecord := PropertyRecord.t.

Definition to_dict (r : Row) : result PropertyRecord :=
  match band r, property_name r, property_unit r with
  | Some b, Some p, Some u => Ok (PropertyRecord.mk b p (property_value r) u)
  | _, _, _ => Raise AttributeError
  end.

Fixpoint foldM {A B : Type} (f : B -> A -> result B) (b : B) (l : list A) : result B :=
  match l with
  | [] => Ok b
  | x :: l' => b' ← f b x; foldM f b' l'
  end.

Fixpoint mapM {A B : Type} (f : A -> result B) (l : list A) : result (list B) :=
  match l with
  | [] => Ok []
  | x :: l' => y ← f x; ys ← mapM f l'; Ok (y :: ys)
  end.

(** [unit.replace("$", "usd")] *)
Fixpoint replace_dollar (s : string) : string :=
  match s with
  | EmptyString => EmptyString
  | String c s' =>
      if Ascii.eqb c "$"%char then "usd" +:+ replace_dollar s'
      else String c (replace_dollar s')
  end.

(** Lines 892-900: the unit a value is multiplied by, [None] when the
    unit ends up [None] or falsy. *)
Definition resolve_unit (pint : Pint) (property_unit : string) : result (option string) :=
  let unit := replace_dollar property_unit in
  if decide (unit = "-") then Ok None
  else if decide (unit = "") then Ok None
  else match ureg pint unit with
       | Resolved true => Ok (Some unit)
       | Resolved false => Ok None
       | UndefinedUnitError => Ok None
       | OtherPintError => Raise PintError
       end.

(** [prop_value * unit if unit else prop_value] *)
Definition scaled (prop_value : option Q) (unit : option string) : result value :=
  match unit, prop_value with
  | Some u, Some x => Ok (VQuantity x u)
  | Some u, None => Raise TypeError
  | None, Some x => Ok (VFloat x)
  | None, None => Ok VNone
  end.

(** The three local variables of [_parse_property_data]. *)
Record Aggregate : Type := mkAggregate {
  mapped_properties : gmap string value;
  property_counts : gmap string (gset Z);
  multi_band_properties : gset string
}.

Section ParsePropertyData.

Variable pint : Pint.
(** [self.property_map]: source property name to target field name. *)
Variable property_map : gmap string string.

Definition mapped_name (prop_name : string) : string :=
  default prop_name (property_map !! prop_name).

(** The body of the loop, lines 889-915. *)
Definition parse_record (acc : Aggregate) (record : PropertyRecord) : result Aggregate :=
  let band := PropertyRecord.band record in
  let prop_name := PropertyRecord.property_name record in
  let prop_value := PropertyRecord.property_value record in
  let mapped_property_name := mapped_name prop_name in
  unit ← resolve_unit pint (PropertyRecord.property_unit record);
  match property_counts acc !! prop_name with
  | None =>
      value ← scaled prop_value unit;
      Ok (mkAggregate
            (<[mapped_property_name := value]> (mapped_properties acc))
            (<[mapped_property_name := {[band]}]> (property_counts acc))
            (multi_band_properties acc))
  | Some _ =>
      match property_counts acc !! mapped_property_name with
      | None => Raise (KeyError mapped_property_name)
      | Some bands =>
          if decide (band ∉ bands) then
            let new_prop_name := mapped_property_name +:+ "_" +:+ pretty band in
            value ← scaled prop_value unit;
            Ok (mkAggregate
                  (<[new_prop_name := value]> (mapped_properties acc))
                  (<[mapped_property_name := bands ∪ {[band]}]> (property_counts acc))
                  (multi_band_properties acc ∪ {[mapped_property_name]}))
          else
            value ← scaled prop_value unit;
            Ok (mkAggregate
                  (<[mapped_property_name := value]> (mapped_properties acc))
                  (property_counts acc)
                  (multi_band_properties acc))
      end
  end.

Definition _parse_property_data (record_data : list PropertyRecord)
    : result (gmap string value * gset string) :=
  acc ← foldM parse_record (mkAggregate ∅ ∅ ∅) record_data;
  Ok (mapped_properties acc, multi_band_properties acc).

(** [_parse_property_data] on the rows of a group, as the builders call
    it on [to_dicts()]: the record of a row is read when the loop reaches
    it, so a row without data raises there and not before. *)
Definition parse_group (group_data : list Row)
    : result (gmap string value * gset string) :=
  acc ← foldM (fun acc r => record ← to_dict r; parse_record acc record)
         (mkAggregate ∅ ∅ ∅) group_data;
  Ok (mapped_properties acc, multi_band_properties acc).

End ParsePropertyData.

(** ** Components and the system under construction *)

(** A keyword argument of a component: a value, the extension bag
    ([ext]), or a reference to another component by its name. *)
Inductive field : Type :=
  | FValue (v : value)
  | FExt (ext_data : gmap string value)
  | FRef (component_name : string).

(** A component is kept as the class it instantiates and the keyword
    arguments it was built from; the schema validation of [r2x.model]
    is not part of this file. *)
Record Component : Type := mkComponent {
  component_class : string;
  component_fields : gmap string field
}.

(** What the builders read of a class of [r2x.model]: its name and its
    [model_fields], each with [is_required()]. *)
Record ModelClass : Type := mkClass {
  class_name : string;
  model_fields : list (string * bool)
}.

Definition field_names (c : ModelClass) : list string := (model_fields c).*1.

Definition required_fields (c : ModelClass) : list string :=
  (filter (fun f => f.2 = true) (model_fields c)).*1.

(** A series of [SingleTimeSeries.from_array]; [None] in the data is NaN. *)
Record SingleTimeSeries : Type := mkSeries {
  variable_name : string;
  initial_time : Z * Z * Z;
  resolution_hours : Z;
  data : list (option Q)
}.

(** [self.system], with the log of the warnings of the build. *)
Record Build : Type := mkBuild {
  components : list Component;
  time_series : list (string * SingleTimeSeries);
  build_log : list warning
}.

Definition add_component (c : Component) (b : Build) : Build :=
  mkBuild (components b ++ [c]) (time_series b) (build_log b).

Definition add_time_series (owner : string) (ts : SingleTimeSeries) (b : Build) : Build :=
  mkBuild (components b) (time_series b ++ [(owner, ts)]) (build_log b).

Definition warn (w : warning) (b : Build) : Build :=
  mkBuild (components b) (time_series b) (build_log b ++ [w]).

(** ** Configuration *)

(** [self.config.defaults], [self.property_map], [self.prime_mover_map],
    the classes of [r2x.model] by name, and the member names of
    [PrimeMoversType]. *)
Record Config : Type := mkConfig {
  weather_year : Z;
  property_map : gmap string string;
  prime_mover_map : gmap string (gmap string string);
  model_map : gmap string string;
  generator_map : gmap string string;
  R2X_MODELS : string -> option ModelClass;
  GenericBattery : ModelClass;
  PrimeMoversType : list string
}.

(** ** Entity builders: generators and batteries *)

(** [df.group_by("name")]: the groups in order of first occurrence (polars
    leaves the order of the groups open), the rows of a group in row
    order. *)
Definition group_by_name (df : list Row) : list (string * list Row) :=
  (fun n => (n, filter (fun r => name r = n) df)) <$> unique (name <$> df).

(** [{key: value for key, value in rows}]: a later row replaces an
    earlier one. *)
Definition dict_of_pairs (rows : list (string * string)) : gmap string string :=
  list_to_map (reverse rows).

(** [{k: v for k, v in mapped_records.items() if k in fields if v is not None}] *)
Definition valid_fields_of (fields : list string) (mapped_records : gmap string value)
    : gmap string value :=
  filter (fun kv => (kv.1 ∈ fields) /\ is_None kv.2 = false) mapped_records.

(** [{k: v for k, v in mapped_records.items() if k not in fields if v is not None}] *)
Definition ext_data_of (fields : list string) (mapped_records : gmap string value)
    : gmap string value :=
  filter (fun kv => (kv.1 ∉ fields) /\ is_None kv.2 = false) mapped_records.

(** Lines 412-414 and 518-520:
[[
    if available := valid_fields.get("available", None):
        if available > 1:
            valid_fields["available"] = 1
]] *)
Definition clamp_available (pint : Pint) (valid_fields : gmap string value)
    : result (gmap string value) :=
  match valid_fields !! "available" with
  | None => Ok valid_fields
  | Some available =>
      if truthy pint available then
        (more ← gt_1 pint available;
         if (more : bool) then Ok (<["available" := VInt 1]> valid_fields)
         else Ok valid_fields)
      else Ok valid_fields
  end.

(** [if ext_data: valid_fields["ext"] = ext_data], giving the keyword
    arguments of the component. *)
Definition with_ext (valid_fields ext_data : gmap string value) : gmap string field :=
  if decide (ext_data = ∅) then FValue <$> valid_fields
  else <["ext" := FExt ext_data]> (FValue <$> valid_fields).

(** [all(key in valid_fields for key in required_fields)] *)
Definition has_all (required : list string) (kwargs : gmap string field) : bool :=
  forallb (fun key => bool_decide (is_Some (kwargs !! key))) required.

(** Lines 400-416 and 503-522: the keyword arguments a component is
    built from. *)
Definition component_kwargs (pint : Pint) (model_class : ModelClass)
    (mapped_records : gmap string value) : result (gmap string field) :=
  let valid_fields := valid_fields_of (field_names model_class) mapped_records in
  let ext_data := ext_data_of (field_names model_class) mapped_records in
  valid_fields ← clamp_available pint valid_fields;
  Ok (with_ext valid_fields ext_data).

(** [self.system.add_component] of the class applied to the keyword
    arguments. *)
Definition add_model (model_class : ModelClass) (kwargs : gmap string field)
    (b : Build) : Build :=
  add_component (mkComponent (class_name model_class) kwargs) b.

Section Builders.

Variable pint : Pint.
Variable config : Config.

(** Lines 348-352: the name of the class of a generator, by its fuel
    first and by its own name otherwise. *)
Definition generator_model_name (generator_fuel_map : gmap string string)
    (generator_name : string) : string :=
  let by_fuel :=
    default "" (generator_fuel_map !! generator_name ≫= (fun f => model_map config !! f)) in
  if decide (by_fuel = "") then default "" (generator_map config !! generator_name)
  else by_fuel.

(** The prime mover entry of a fuel, [self.prime_mover_map["default"]]
    when the fuel has none. *)
Definition prime_mover_entry (generator_fuel_type : option string)
    : result (gmap string string) :=
  match generator_fuel_type ≫= (fun f => prime_mover_map config !! f) with
  | Some entry => Ok entry
  | None =>
      match prime_mover_map config !! "default" with
      | Some entry => Ok entry
      | None => Raise (KeyError "default")
      end
  end.

(** [PrimeMoversType[member]] *)
Definition prime_mover_member (member : option string) : result value :=
  match member with
  | Some m =>
      if decide (m ∈ PrimeMoversType config) then Ok (VPrimeMover m)
      else Raise (KeyError m)
  | None => Raise (KeyError "None")
  end.

(** Lines 372-398: what is added to the attribute bag of a generator. *)
Definition generator_records (generator_name : string)
    (generator_fuel_type : option string) (mapped_records : gmap string value)
    : result (gmap string value) :=
  let mapped_records := <["name" := VStr generator_name]> mapped_records in
  entry ← prime_mover_entry generator_fuel_type;
  prime_mover ← prime_mover_member (entry !! "type");
  let mapped_records := <["prime_mover_type" := prime_mover]> mapped_records in
  let fuel := from_option VStr VNone (entry !! "fuel") in
  let mapped_records := <["fuel" := fuel]> mapped_records in
  (* [match model_map: case HydroPumpedStorage():] asks whether the class
     object is an instance of [HydroPumpedStorage]; it is not, and the
     case is never taken. *)
  Ok match mapped_records !! "base_power", mapped_records !! "pump_load" with
     | None, Some pump_load => <["base_power" := pump_load]> mapped_records
     | _, _ => mapped_records
     end.

(** Lines 418-424: skip with a warning, or add the component. *)
Definition register_generator (model_class : ModelClass) (generator_name : string)
    (kwargs : gmap string field) (b : Build) : Build :=
  if has_all (required_fields model_class) kwargs then add_model model_class kwargs b
  else warn (MissingRequiredFields generator_name) b.

(** The body of the loop of [_construct_generators], lines 348-424. *)
Definition construct_generator (generator_fuel_map : gmap string string)
    (b : Build) (group : string * list Row) : result Build :=
  let generator_name := group.1 in
  let generator_fuel_type := generator_fuel_map !! generator_name in
  match R2X_MODELS config (generator_model_name generator_fuel_map generator_name) with
  | None => Ok (warn (ModelMapNotFound generator_name generator_fuel_type) b)
  | Some model_class =>
      property_records ← mapM to_dict group.2;
      parsed ← _parse_property_data pint (property_map config) property_records;
      mapped_records ← generator_records generator_name generator_fuel_type parsed.1;
      kwargs ← component_kwargs pint model_class mapped_records;
      Ok (register_generator model_class generator_name kwargs b)
  end.

(** Lines 493-501: what is added to the attribute bag of a battery. *)
Definition battery_records (battery_name : string) (mapped_records : gmap string value)
    : gmap string value :=
  let mapped_records := <["name" := VStr battery_name]> mapped_records in
  let mapped_records :=
    match mapped_records !! "Max Power" with
    | Some v => <["base_power" := v]> mapped_records
    | None => mapped_records
    end in
  let mapped_records :=
    match mapped_records !! "Capacity" with
    | Some v => <["storage_capacity" := v]> mapped_records
    | None => mapped_records
    end in
  <["prime_mover_type" := VPrimeMover "BA"]> mapped_records.

(** Lines 524-535: skip with a warning when a required field is missing
    or the storage capacity is zero, add the component otherwise. *)
Definition register_battery (battery_name : string) (mapped_records : gmap string value)
    (kwargs : gmap string field) (b : Build) : result Build :=
  if has_all (required_fields (GenericBattery config)) kwargs then
    match mapped_records !! "storage_capacity" with
    | None => Raise (KeyError "storage_capacity")
    | Some storage_capacity =>
        zero ← eq_0 pint storage_capacity;
        if (zero : bool) then Ok (warn (ZeroCapacity battery_name) b)
        else Ok (add_model (GenericBattery config) kwargs b)
    end
  else Ok (warn (MissingRequiredFields battery_name) b).

(** The body of the loop of [_construct_batteries], lines 487-535. *)
Definition construct_battery (b : Build) (group : string * list Row) : result Build :=
  let battery_name := group.1 in
  property_records ← mapM to_dict group.2;
  parsed ← _parse_property_data pint (property_map config) property_records;
  let mapped_records := battery_records battery_name parsed.1 in
  kwargs ← component_kwargs pint (GenericBattery config) mapped_records;
  register_battery battery_name mapped_records kwargs b.

(** The loops of [_construct_generators] and [_construct_batteries],
    over the rows [_get_model_data] returned. *)
Definition construct_generators (generator_fuel : list (string * string))
    (system_generators : list Row) (b : Build) : result Build :=
  foldM (construct_generator (dict_of_pairs generator_fuel)) b
    (group_by_name system_generators).

Definition construct_batteries (system_batteries : list Row) (b : Build) : result Build :=
  foldM construct_battery b (group_by_name system_batteries).

End Builders.

(** ** Time series extraction *)

(** What a handler gives back: the series or [None], and its warnings. *)
Definition handled : Type := option SingleTimeSeries * list warning.

(** *** The calendar of [numpy.datetime64] and [datetime] *)

Definition is_leap (y : Z) : bool :=
  (y mod 4 =? 0)%Z && (negb (y mod 100 =? 0)%Z || (y mod 400 =? 0)%Z).

Definition days_in_month (y m : Z) : Z :=
  match m with
  | 1 | 3 | 5 | 7 | 8 | 10 | 12 => 31
  | 4 | 6 | 9 | 11 => 30
  | 2 => if is_leap y then 29 else 28
  | _ => 0
  end.

(** [np.arange(f"{y}", f"{y + 1}", dtype="datetime64[h]")]: the hours of
    the year, each as (year, month, day, hour). *)
Definition hours_of_month (y m : Z) : list (Z * Z * Z * Z) :=
  d ← seqZ 1 (days_in_month y m); h ← seqZ 0 24; [(y, m, d, h)].

Definition date_time_array (y : Z) : list (Z * Z * Z * Z) :=
  m ← seqZ 1 12; hours_of_month y m.

(** [dt.astype("datetime64[M]").astype(int)]: the months since 1970-01. *)
Definition months_since_epoch (dt : Z * Z * Z * Z) : Z :=
  (dt.1.1.1 - 1970) * 12 + (dt.1.1.2 - 1).

(** [datetime(year, month, day)] accepts the date. *)
Definition valid_date (y m d : Z) : bool :=
  bool_decide (1 <= y <= 9999 /\ 1 <= m <= 12 /\ 1 <= d <= days_in_month y m).

(** *** Reading a month code *)

(** [text.strip("M")] *)
Fixpoint lstrip_M (l : list ascii) : list ascii :=
  match l with
  | c :: l' => if Ascii.eqb c "M"%char then lstrip_M l' else l
  | [] => []
  end.

Definition strip_M (s : string) : string :=
  string_of_list_ascii
    (reverse (lstrip_M (reverse (lstrip_M (list_ascii_of_string s))))).

Definition digit (c : ascii) : option Z :=
  let n := Z.of_N (N_of_ascii c) in
  if decide (48 <= n <= 57) then Some (n - 48) else None.

(** Decimal digits, single underscores allowed between two digits. *)
Fixpoint digits_value (acc : Z) (after_digit : bool) (l : list ascii) : option Z :=
  match l with
  | [] => if after_digit then Some acc else None
  | c :: l' =>
      if Ascii.eqb c "_"%char then
        if after_digit then digits_value acc false l' else None
      else
        match digit c with
        | Some d => digits_value (10 * acc + d) true l'
        | None => None
        end
  end.

Definition is_whitespace (c : ascii) : bool :=
  let n := N_of_ascii c in
  bool_decide (9 <= n <= 13 \/ 28 <= n <= 32)%N.

Fixpoint lstrip_space (l : list ascii) : list ascii :=
  match l with
  | c :: l' => if is_whitespace c then lstrip_space l' else l
  | [] => []
  end.

(** [int(s)] on a string: surrounding white space, an optional sign,
    decimal digits. *)
Definition py_int (s : string) : result Z :=
  let l := reverse (lstrip_space (reverse (lstrip_space (list_ascii_of_string s)))) in
  let signed :=
    match l with
    | c :: l' =>
        if Ascii.eqb c "-"%char then Z.opp <$> digits_value 0 false l'
        else if Ascii.eqb c "+"%char then digits_value 0 false l'
        else digits_value 0 false l
    | [] => None
    end in
  from_option Ok (Raise ValueError) signed.

(** *** The time-slice handler *)

(** [month_datetime_series[np.where(months == month)] = value] *)
Definition assign_month (months : list Z) (month : Z) (v : option Q)
    (series : list (option Q)) : list (option Q) :=
  zip_with (fun m cur => if decide (m = month) then v else cur) months series.

Definition _time_slice_handler (weather_year : Z) (property_name : string)
    (property_data : list Row) : result handled :=
  if negb (bool_decide (1 <= weather_year <= 9999)) then Raise ValueError
  else
    let date_time_array := date_time_array weather_year in
    let months := (fun dt => months_since_epoch dt `mod` 12 + 1) <$> date_time_array in
    let month_datetime_series := replicate (length date_time_array) (Some 0%Q) in
    if negb (bool_decide (length property_data = 12%nat)) then
      Ok (None, [PartialTimeSlices property_name])
    else
      series ← foldM
        (fun series record =>
           text ← from_option Ok (Raise AttributeError) (text record);
           month ← py_int (strip_M text);
           Ok (assign_month months month (property_value record) series))
        month_datetime_series property_data;
      Ok (Some (mkSeries property_name (weather_year, 1, 1) 1 series), []).

(** *** The CSV file handler *)

(** A profile file as [pl.read_csv] loads it: a header and rows of
    numeric cells. *)
Inductive Cell : Type :=
  | CInt (n : Z)
  | CFloat (x : Q)
  | CNull.

Record DataFile : Type := mkDataFile {
  header : list string;
  rows : list (list Cell)
}.

(** [pl.read_csv((self.config.run_folder / relative_path).as_posix())]:
    the file system under the run folder, an external collaborator. *)
Inductive read_csv_result : Type :=
  | FileNotFoundError
  | Loaded (data_file : DataFile)
  | ReadError (e : exn).

Definition FileSystem : Type := relative_path -> read_csv_result.

Definition DATETIME_COLUMNS : list string := ["year"; "month"; "day"].

Definition lower_ascii (c : ascii) : ascii :=
  let n := N_of_ascii c in
  if decide (65 <= n <= 90)%N then ascii_of_N (n + 32) else c.

Fixpoint lower (s : string) : string :=
  match s with
  | EmptyString => EmptyString
  | String c s' => String (lower_ascii c) (lower s')
  end.

Definition cell (columns : list string) (row : list Cell) (column : string) : Cell :=
  default CNull
    ((fun found : nat * (string * Cell) => found.2.2)
       <$> list_find (fun kv => kv.1 = column) (zip columns row)).

Definition cell_equals (c : Cell) (n : Z) : bool :=
  match c with
  | CInt m => bool_decide (m = n)
  | CFloat x => Qeq_bool x (inject_Z n)
  | CNull => false
  end.

Definition cell_value (c : Cell) : option Q :=
  match c with
  | CInt n => Some (inject_Z n)
  | CFloat x => Some x
  | CNull => None
  end.

(** Lines 831-853, on a file that was found. *)
Definition series_of_data_file (weather_year : Z) (property_name : string)
    (path : relative_path) (data_file : DataFile) : result handled :=
  let columns := lower <$> header data_file in
  if negb (bool_decide (NoDup columns)) then Raise DuplicateError
  else if forallb (fun column => bool_decide (column ∈ columns)) DATETIME_COLUMNS then
    let in_year :=
      filter (fun row => cell_equals (cell columns row "year") weather_year = true)
        (rows data_file) in
    let value_columns := filter (fun column => column ∉ DATETIME_COLUMNS) columns in
    let melted :=
      column ← value_columns; row ← in_year;
      [(cell columns row "year", cell columns row "month", cell columns row "day",
        cell columns row column)] in
    match melted with
    | [] => Raise AssertionError
    | (CInt y, CInt m, CInt d, _) :: _ =>
        if valid_date y m d then
          Ok (Some (mkSeries property_name (y, m, d) 1 ((fun r => cell_value r.2) <$> melted)),
              [])
        else Raise ValueError
    | _ :: _ => Raise TypeError
    end
  else Ok (None, [DataFileNotSupported path]).

(** ["\\" in fpath_text] *)
Definition has_backslash (s : string) : bool :=
  existsb (fun c => Ascii.eqb c "\"%char) (list_ascii_of_string s).

(** Lines 815-818 *)
Definition relative_path_of (fpath_text : string) : relative_path :=
  if has_backslash fpath_text then PureWindowsPath fpath_text else Path fpath_text.

Definition _csv_file_handler (fs : FileSystem) (weather_year : Z) (property_name : string)
    (property_data : list Row) : result handled :=
  let more_than_one :=
    if bool_decide (length property_data = 1%nat) then []
    else [MoreThanOneRow property_name] in
  match property_data with
  | [] => Raise IndexError
  | first :: _ =>
      match text first with
      | None => Raise TypeError
      | Some fpath_text =>
          let relative_path := relative_path_of fpath_text in
          match fs relative_path with
          | FileNotFoundError => Ok (None, more_than_one ++ [FileNotFound relative_path])
          | ReadError e => Raise e
          | Loaded data_file =>
              handled ← series_of_data_file weather_year property_name relative_path
                           data_file;
              Ok (handled.1, more_than_one ++ handled.2)
          end
      end
  end.

(** *** Dispatch on the text annotation *)

Definition ends_with (suffix s : string) : bool :=
  String.prefix (String.rev suffix) (String.rev s).

(** [property_data["text"].str.ends_with(...).all()] and the like: null
    cells are left out of [all] and [any]. *)
Definition all_text (p : string -> bool) (property_data : list Row) : bool :=
  forallb (fun r => from_option p true (text r)) property_data.

Definition any_text (p : string -> bool) (property_data : list Row) : bool :=
  existsb (fun r => from_option p false (text r)) property_data.

Definition _text_handler (fs : FileSystem) (weather_year : Z) (property_name : string)
    (property_data : list Row) : result handled :=
  if all_text (ends_with ".csv") property_data then
    _csv_file_handler fs weather_year property_name property_data
  else if all_text (String.prefix "M") property_data then
    _time_slice_handler weather_year property_name property_data
  else if any_text (String.prefix "H") property_data then
    Ok (None, [HourSlicesNotSupported property_name])
  else Ok (None, []).

(** *** Load profiles *)

(** The members of [plexosdb.enums.ClassEnum] the load profiles read. *)
Record ClassEnum : Type := mkClassEnum {
  ClassEnum_System : Z;
  ClassEnum_Region : Z
}.

(** [pl.col(c) == v] *)
Definition equals (c : option Z) (v : Z) : option bool :=
  (fun x => bool_decide (x = v)) <$> c.

Definition system_regions (ce : ClassEnum) : Expr :=
  fun r => Kleene.and (equals (child_class_id r) (ClassEnum_Region ce))
                      (equals (parent_class_id r) (ClassEnum_System ce)).

Definition component_name (c : Component) : option string :=
  match component_fields c !! "name" with
  | Some (FValue (VStr n)) => Some n
  | _ => None
  end.

(** [self.system.get_component(cls, name=n)] *)
Definition get_component (cls n : string) (b : Build) : result Component :=
  match list_find (fun c => component_class c = cls /\ component_name c = Some n)
          (components b) with
  | Some (_, c) => Ok c
  | None => Raise (ISNotStored n)
  end.

(** [np.max] of the data of a series; NaN when a value is missing. *)
Definition Qmax (x y : Q) : Q := if Qle_bool x y then y else x.

Fixpoint np_max (l : list (option Q)) : result (option Q) :=
  match l with
  | [] => Raise ValueError
  | [x] => Ok x
  | x :: l' =>
      m ← np_max l';
      Ok (match x, m with Some x, Some m => Some (Qmax x m) | _, _ => None end)
  end.

Section LoadProfiles.

Variable fs : FileSystem.
Variable config : Config.
(** [self.db.get_memberships(region, object_class=ClassEnum.Region,
    collection=CollectionEnum.NodesRegion)]: the names of the buses
    of a region. *)
Variable bus_region_membership : string -> list string.

(** The body of the loop of [_construct_load_profiles], lines 735-753. *)
Definition construct_load_profile (b : Build) (group : string * list Row) : result Build :=
  let '(region, region_data) := group in
  handled ← _csv_file_handler fs (weather_year config) "max_active_power" region_data;
  let b := foldl (fun b w => warn w b) b handled.2 in
  match handled.1 with
  | None => Ok b
  | Some ts =>
      max_load ← np_max (data ts);
      let buses := bus_region_membership region in
      foldM
        (fun b bus_name =>
           bus ← get_component "ACBus" bus_name b;
           let share :=
             from_option
               (fun x => VQuantity (x / inject_Z (Z.of_nat (length buses))) "MW")
               VNaN max_load in
           let load :=
             mkComponent "PowerLoad"
               {[ "name" := FValue (VStr bus_name);
                  "bus" := FRef bus_name;
                  "max_active_power" := FValue share ]} in
           Ok (add_time_series bus_name ts (add_component load b)))
        b buses
  end.

Definition _construct_load_profiles (ce : ClassEnum) (st : ParserState)
    (plexos_data : list Row) (b : Build) : result Build :=
  resolved ← get_model_data st plexos_data (system_regions ce);
  let regions := df_filter (fun r => Kleene.not (is_null (text r))) resolved in
  foldM construct_load_profile b (group_by_name regions).

End LoadProfiles.

(** ** The specification's reading of scenario resolution *)

(** Step 1 of the override algorithm: the rows that match the predicate
    and carry a scenario of the active set. *)
Definition scenario_rows (scs : list string) (p : Expr) (table : list Row) : list Row :=
  filter (fun r => p r = Some true /\ scenario r ∈ (Some <$> scs)) table.

(** Step 3: the base-case mask, over the scenario rows. *)
Definition base_case_mask (rows : list Row) (r : Row) : Prop :=
  scenario r = None
  \/ ((name r ∉ (name <$> rows)) /\ (property_name r ∉ (property_name <$> rows)))
  \/ property_name r = None.

#[global] Instance base_case_mask_dec rows r : Decision (base_case_mask rows r).
Proof. unfold base_case_mask. apply _. Defined.

(** The consequence the specification draws from the mask: a base-case
    row of a pair that a scenario row covers, with a property name, is
    not in the resolved table. *)
Definition covered_base_rows_excluded (scs : list string) (table : list Row) (p : Expr)
    : Prop :=
  forall res s b,
    _get_model_data (Some scs) table p = Ok res ->
    s ∈ scenario_rows scs p table ->
    b ∈ res -> scenario b = None ->
    name b = name s -> property_name b = property_name s ->
    property_name b = None.

(** ** The outcome of a builder, for a given value of [available] *)



(** ** Builds with the same output graph *)

(** Two builds hold the same components and the same time series; only
    their logs may differ. *)
Definition same_graph (b1 b2 : Build) : Prop :=
  components b1 = components b2 /\ time_series b1 = time_series b2.

(** Two stages end alike: with the same exception, or with the same
    output graph. *)
Definition same_outcome (r1 r2 : result Build) : Prop :=
  match r1, r2 with
  | Ok b1, Ok b2 => same_graph b1 b2
  | Raise e1, Raise e2 => e1 = e2
  | _, _ => False
  end.

(** ** Month codes *)

(** The code of a month: ["M1"] to ["M12"]. *)
Definition month_code (m : Z) : string := "M" +:+ pretty m.

(** The month of an hour of the year. *)
Definition month_of (dt : Z * Z * Z * Z) : Z := dt.1.1.2.

Definition days_in_year (y : Z) : Z := if is_leap y then 366 else 365.

(** The month a text, and a record of the time-slice handler, is read as,
    0 where the text does not read as a number. *)
Definition text_tag (t : option string) : Z :=
  match t with
  | Some t => match py_int (strip_M t) with Ok m => m | Raise _ => 0 end
  | None => 0
  end.

Definition month_tag (record : Row) : Z := text_tag (text record).

(** The assignment of one record of the time-slice handler, once its
    month code is read. *)
Definition assign_record (months : list Z) (series : list (option Q)) (record : Row)
    : list (option Q) :=
  assign_month months (month_tag record) (property_value record) series.

(** ** The invariant of the aggregator *)

(** What the loop of the aggregator keeps: every name with counted bands
    has a field, and every multi-band name has counted bands and a field
    suffixed with a band. *)
Definition aggregate_invariant (acc : Aggregate) : Prop :=
  (forall k, is_Some (property_counts acc !! k) -> is_Some (mapped_properties acc !! k))
  /\ (forall m, m ∈ multi_band_properties acc ->
        is_Some (property_counts acc !! m)
        /\ exists b : Z, is_Some (mapped_properties acc !! (m +:+ "_" +:+ pretty b))).

(** ** What a builder loop does to the system *)

(** The build [b'] is the build [b] with the components [new] added at
    the end: no component is removed or changed, the time series are the
    same, and the log has only grown. *)
Definition extends_with (b b' : Build) (new : list Component) : Prop :=
  components b' = components b ++ new
  /\ time_series b' = time_series b
  /\ exists ws, build_log b' = build_log b ++ ws.

(** A component of a class of [r2x.model], with all the required fields
    of that class. *)
Definition complete_component (cls : ModelClass) (c : Component) : Prop :=
  component_class c = class_name cls
  /\ has_all (required_fields cls) (component_fields c) = true.

Definition complete_generator (config : Config) (c : Component) : Prop :=
  exists n cls, R2X_MODELS config n = Some cls /\ complete_component cls c.


(** ** What the CSV file handler reads of a profile file *)

(** The rows of the weather year, and the columns other than the date:
    one value of the series for each pair of them. *)
Definition rows_of_year (weather_year : Z) (data_file : DataFile) : list (list Cell) :=
  filter
    (fun row => cell_equals (cell (lower <$> header data_file) row "year") weather_year
                = true)
    (rows data_file).

Definition value_columns (data_file : DataFile) : list string :=
  filter (fun column => column ∉ DATETIME_COLUMNS) (lower <$> header data_file).


(** ** What the load profile of a region adds *)

(** The load of a bus of a region with [n] buses, for the peak
    [max_load] of the profile of the region. *)
Definition power_load (max_load : option Q) (n : nat) (bus_name : string) : Component :=
  mkComponent "PowerLoad"
    {[ "name" := FValue (VStr bus_name);
       "bus" := FRef bus_name;
       "max_active_power" :=
         FValue (from_option (fun x => VQuantity (x / inject_Z (Z.of_nat n)) "MW")
                   VNaN max_load) ]}.

(** The system holds a bus of that name. *)
Definition stored_bus (b : Build) (bus_name : string) : Prop :=
  exists c, c ∈ components b
            /\ component_class c = "ACBus" /\ component_name c = Some bus_name.

(** A build grown by loads only, each with one series. *)
Definition loads_added (b b' : Build) : Prop :=
  exists new,
    components b' = components b ++ new
    /\ Forall (fun c => component_class c = "PowerLoad") new
    /\ exists series,
         time_series b' = time_series b ++ series
         /\ series.*1 = omap component_name new.

(** ** The property map of the parser *)

(** [{v: k for k, v in self.config.defaults["plexos_property_map"].items()}],
    line 106: the items of the default map in their order, each turned
    around; a later item replaces an earlier one of the same value. *)
Definition invert_property_map (plexos_property_map : list (string * string))
    : gmap string string :=
  dict_of_pairs ((fun kv => (kv.2, kv.1)) <$> plexos_property_map).

(** ** The buses of the generators and of the batteries *)

(** A row of [self.db.get_memberships(...)], of which the two stages read
    the name at position 2 (the generator or the battery) and the name at
    position 3 (the bus). *)
Record Membership : Type := mkMembership {
  membership_2 : string;
  membership_3 : string
}.

(** The warning of the handler of [ISNotStored], by its arguments: the
    name of the component and [buses[3]]. *)
Inductive skipped_membership : Type :=
  | SkippingMembership (name : option string) (fourth : Membership).

(** [component.bus = bus_object] *)
Definition set_bus (bus_name : string) (c : Component) : Component :=
  mkComponent (component_class c) (<["bus" := FRef bus_name]> (component_fields c)).

Section AddBuses.

(** [self.system.get_components(cls)]: the components of the class. *)
Variable is_member : Component -> bool.
(** What [self.db.get_memberships] returned. *)
Variable memberships : list Membership.

(** [[membership for membership in memberships if membership[2] == component.name]] *)
Definition buses_of (c : Component) : list Membership :=
  filter (fun membership => Some (membership_2 membership) = component_name c) memberships.

(** The body of the loop over the buses of the component at position [i]
    of the system, lines 438-447 and 549-558: the handler of
    [ISNotStored] reads [buses[3]], the fourth membership of the
    component, for its message. *)
Definition add_bus (buses : list Membership) (name : option string) (i : nat)
    (acc : Build * list skipped_membership) (bus : Membership)
    : result (Build * list skipped_membership) :=
  match get_component "ACBus" (membership_3 bus) acc.1 with
  | Ok bus_object =>
      Ok (mkBuild (alter (set_bus (membership_3 bus)) i (components acc.1))
            (time_series acc.1) (build_log acc.1),
          acc.2)
  | Raise (ISNotStored _) =>
      match buses !! 3%nat with
      | Some fourth => Ok (acc.1, acc.2 ++ [SkippingMembership name fourth])
      | None => Raise IndexError
      end
  | Raise e => Raise e
  end.

(** The loop over the components of the class, lines 434-447 and
    545-558; [if buses:] guards a loop that does nothing on an empty
    list. *)
Definition add_buses (b : Build) : result (Build * list skipped_membership) :=
  foldM
    (fun acc component =>
       if is_member component.2 then
         foldM (add_bus (buses_of component.2) (component_name component.2) component.1)
           acc (buses_of component.2)
       else Ok acc)
    (b, []) (imap pair (components b)).

End AddBuses.

(** [_add_buses_to_generators], for the classes of [r2x.model] that are
    generators, and [_add_buses_to_batteries]. *)
Definition _add_buses_to_generators (Generator : string -> bool)
    (generator_memberships : list Membership) (b : Build)
    : result (Build * list skipped_membership) :=
  add_buses (fun c => Generator (component_class c)) generator_memberships b.

Definition _add_buses_to_batteries (config : Config)
    (generator_memberships : list Membership) (b : Build)
    : result (Build * list skipped_membership) :=
  add_buses (fun c => bool_decide (component_class c = class_name (GenericBattery config)))
    generator_memberships b.

(** Two components that differ at most in their bus, and two builds that
    differ at most in the buses of their components. *)
Definition same_but_bus (c c' : Component) : Prop :=
  component_class c' = component_class c
  /\ forall k, k <> "bus" -> component_fields c' !! k = component_fields c !! k.

Definition bus_update (b b' : Build) : Prop :=
  time_series b' = time_series b
  /\ build_log b' = build_log b
  /\ Forall2 same_but_bus (components b) (components b').

(** The stage runs to its end on this system: every bus of every
    component of the class is stored, or the component has four buses or
    more. *)
Definition buses_stored_or_four (is_member : Component -> bool)
    (memberships : list Membership) (b : Build) : Prop :=
  forall c, c ∈ components b -> is_member c = true ->
    forall bus, bus ∈ buses_of memberships c ->
      stored_bus b (membership_3 bus) \/ (4 <= length (buses_of memberships c))%nat.


(** ** Sample data *)

Module Sample.

(** A row of a generator, child of the system, with one property. *)
Definition row (n : string) (p : option string) (v : Q) (sc t : option string) : Row :=
  mkRow (Some 1) (Some 1) (Some "System") (Some 2) (Some "Generator") (Some "-")
    7 n p (Some "-") (Some v) (Some 1) None None None t sc.

Definition base_row : Row := row "gen1" (Some "Max Capacity") 100 None None.
Definition scenario_row : Row := row "gen1" (Some "Max Capacity") 250 (Some "High") None.
Definition table : list Row := [base_row; scenario_row].

Definition every_row : Expr := fun _ => Some true.

Definition db_without_models : PlexosDB := mkDB (fun _ => []) (fun _ => []).
Definition db_with_two_models : PlexosDB := mkDB (fun _ => [3; 4]) (fun _ => ["High"]).
Definition fresh : ParserState := mkState None None [].

(** A unit registry that knows [MW] and [MWh]. *)
Definition pint : Pint :=
  mkPint
    (fun unit => if decide (unit = "MW" \/ unit = "MWh") then Resolved true
                 else UndefinedUnitError)
    (fun x _ => negb (Qeq_bool x 0))
    (fun _ _ => Raise ValueError)
    (fun x _ => Ok (Qeq_bool x 0)).

(** Two records of one property, on bands 1 and 2. *)
Definition two_bands : list PropertyRecord :=
  [PropertyRecord.mk 1 "Max Capacity" (Some 100%Q) "-";
   PropertyRecord.mk 2 "Max Capacity" (Some 200%Q) "-"].

Definition property_map : gmap string string := {[ "Max Capacity" := "base_power" ]}.

(** A property row of [gen1] or of [bat1]. *)
Definition property_row (n p : string) (v : Q) (u : string) : Row :=
  mkRow (Some 1) (Some 1) (Some "System") (Some 2) (Some "Generator") (Some "-")
    7 n (Some p) (Some u) (Some v) (Some 1) None None None None None.

Definition ThermalStandard : ModelClass :=
  mkClass "ThermalStandard"
    [("name", true); ("available", false); ("base_power", true);
     ("prime_mover_type", false); ("fuel", false); ("ext", false)].

Definition Battery : ModelClass :=
  mkClass "GenericBattery"
    [("name", true); ("available", false); ("base_power", true);
     ("storage_capacity", true); ("prime_mover_type", false); ("ext", false)].

Definition config : Config :=
  mkConfig 2012
    {[ "Max Capacity" := "base_power"; "Units" := "available" ]}
    {[ "default" := {[ "type" := "OT"; "fuel" := "OTHER" ]} ]}
    {[ "Gas" := "ThermalStandard" ]}
    ∅
    (fun n => if decide (n = "ThermalStandard") then Some ThermalStandard else None)
    Battery
    ["OT"; "BA"; "PS"].

Definition fuel_map : gmap string string := {[ "gen1" := "Gas" ]}.

Definition empty_build : Build := mkBuild [] [] [].

(** A generator of three units, one of a single unit, a retired one. *)
Definition generator (units : Q) : string * list Row :=
  ("gen1", [property_row "gen1" "Units" units "-";
            property_row "gen1" "Max Capacity" 100 "MW"]).

(** A battery with its units and its capacity. *)
Definition battery (units capacity : Q) : string * list Row :=
  ("bat1", [property_row "bat1" "Units" units "-";
            property_row "bat1" "Max Power" 50 "MW";
            property_row "bat1" "Capacity" capacity "MWh"]).

(** The rows of a region with a month code in their text. *)
Definition month_row (m : Z) : Row :=
  mkRow (Some 1) (Some 1) (Some "System") (Some 5) (Some "Region") (Some "-")
    9 "region1" (Some "Load") (Some "MW") (Some (inject_Z (100 * m))) (Some 1)
    None None None (Some ("M" +:+ pretty m)) (Some "High").

Definition twelve_months : list Row := month_row <$> seqZ 1 12.

(** A region whose load points at a file. *)
Definition file_row : Row :=
  mkRow (Some 1) (Some 1) (Some "System") (Some 5) (Some "Region") (Some "-")
    9 "region1" (Some "Load") (Some "MW") (Some 0%Q) (Some 1)
    None None None (Some "profiles\load.csv") (Some "High").

Definition class_enum : ClassEnum := mkClassEnum 1 5.

Definition with_scenario : ParserState := mkState (Some 3) (Some ["High"]) [].

(** A run folder without any file. *)
Definition no_files : FileSystem := fun _ => FileNotFoundError.

Definition no_buses : string -> list string := fun _ => [].

(** A system with one bus, the bus of every region. *)
Definition bus1 : Component :=
  mkComponent "ACBus" {[ "name" := FValue (VStr "bus1") ]}.

Definition one_bus : Build := mkBuild [bus1] [] [].

Definition bus1_everywhere : string -> list string := fun _ => ["bus1"].


(** An attribute bag with a field of the class, a property the class
    does not know, and a null value. *)
Definition bag : gmap string value :=
  {[ "name" := VStr "gen1"; "available" := VFloat 3; "Heat Rate" := VFloat 9;
     "fuel" := VNone ]}.

(** A profile file with two hours a day: two days of 2012 and one of
    2011. *)
Definition load_file : DataFile :=
  mkDataFile ["Year"; "Month"; "Day"; "1"; "2"]
    [[CInt 2011; CInt 12; CInt 31; CFloat 99; CFloat 99];
     [CInt 2012; CInt 1; CInt 1; CFloat 10; CFloat 30];
     [CInt 2012; CInt 1; CInt 2; CFloat 20; CFloat 5]].

(** A run folder that holds this one file. *)
Definition one_file : FileSystem :=
  fun path =>
    match path with
    | PureWindowsPath t => if String.eqb t "profiles\load.csv" then Loaded load_file
                           else FileNotFoundError
    | Path _ => FileNotFoundError
    end.

(** A second row of the same region, pointing at a file that is not
    there. *)
Definition other_file_row : Row :=
  mkRow (Some 1) (Some 1) (Some "System") (Some 5) (Some "Region") (Some "-")
    9 "region1" (Some "Load") (Some "MW") (Some 0%Q) (Some 1)
    None None None (Some "profiles\other.csv") (Some "High").

(** A record of hour slices among the months. *)
Definition hour_row : Row :=
  mkRow (Some 1) (Some 1) (Some "System") (Some 5) (Some "Region") (Some "-")
    9 "region1" (Some "Load") (Some "MW") (Some 7%Q) (Some 1)
    None None None (Some "M1,H3") (Some "High").

(** Twelve records that name January twice and December never. *)
Definition january_row : Row :=
  mkRow (Some 1) (Some 1) (Some "System") (Some 5) (Some "Region") (Some "-")
    9 "region1" (Some "Load") (Some "MW") (Some 7%Q) (Some 1)
    None None None (Some "M1") (Some "High").

Definition january_twice : list Row := january_row :: (month_row <$> seqZ 1 11).

(** Twelve records, one of them of hour slices. *)
Definition with_hour_slices : list Row := hour_row :: (month_row <$> seqZ 2 11).


(** A region whose load is a number, without a text. *)
Definition plain_region_row : Row :=
  mkRow (Some 1) (Some 1) (Some "System") (Some 5) (Some "Region") (Some "-")
    9 "region1" (Some "Load") (Some "MW") (Some 100%Q) (Some 1)
    None None None None None.

(** A default map with two names for one property. *)
Definition plexos_property_map : list (string * string) :=
  [("base_power", "Max Capacity"); ("rating", "Max Capacity"); ("available", "Units")].

(** A system with a bus and a battery, and the membership of the battery
    in the bus. *)
Definition bat1 : Component :=
  mkComponent "GenericBattery" {[ "name" := FValue (VStr "bat1") ]}.

Definition bus_and_battery : Build := mkBuild [bus1; bat1] [] [].

Definition bat1_at_bus1 : list Membership := [mkMembership "bat1" "bus1"].

End Sample.

(** * Properties *)

(** ** Filters and Kleene connectives *)

Lemma kleene_and_true a b :
  Kleene.and a b = Some true <-> a = Some true /\ b = Some true.
Proof. destruct a as [[]|], b as [[]|]; simpl; intuition congruence. Qed.

Lemma kleene_or_true a b :
  Kleene.or a b = Some true <-> a = Some true \/ b = Some true.
Proof. destruct a as [[]|], b as [[]|]; simpl; intuition congruence. Qed.

Lemma kleene_or_false a b :
  Kleene.or a b = Some false <-> a = Some false /\ b = Some false.
Proof. destruct a as [[]|], b as [[]|]; simpl; intuition congruence. Qed.

Lemma kleene_not_true a : Kleene.not a = Some true <-> a = Some false.
Proof. destruct a as [[]|]; simpl; intuition congruence. Qed.

Lemma is_null_true {A : Type} (v : option A) : is_null v = Some true <-> v = None.
Proof. unfold is_null. destruct v; split; intros H; done || discriminate. Qed.

Lemma is_in_true (v : option string) (values : list (option string)) : is_in v values = Some true <-> v ∈ values /\ v <> None.
Proof.
  destruct v as [s|]; simpl.
  - split.
    + intros [= H]. apply bool_decide_eq_true in H. split; [done | discriminate].
    + intros [H _]. f_equal. by apply bool_decide_eq_true.
  - split; [discriminate | intros [_ H]; congruence].
Qed.

Lemma is_in_false (v : option string) (values : list (option string)) : is_in v values = Some false <-> (v ∉ values) /\ v <> None.
Proof.
  destruct v as [s|]; simpl.
  - split.
    + intros [= H]. apply bool_decide_eq_false in H. split; [done | discriminate].
    + intros [H _]. f_equal. by apply bool_decide_eq_false.
  - split; [discriminate | intros [_ H]; congruence].
Qed.

Lemma scenario_in_active (scs : list string) (r : Row) :
  scenario r ∈ (Some <$> scs) -> scenario r <> None.
Proof.
  intros H Hn. rewrite Hn in H.
  apply list_elem_of_fmap in H as (s & Hs & _). discriminate.
Qed.

(** The scenario rows of the code are those of the specification. *)
Lemma scenario_specific_data_spec (table : list Row) (scs : list string) (p : Expr) :
  scenario_specific_data table scs p = scenario_rows scs p table.
Proof.
  unfold scenario_specific_data, scenario_rows, df_filter.
  apply list_filter_iff. intros r.
  rewrite kleene_and_true. unfold scenario_filter. rewrite is_in_true.
  pose proof (scenario_in_active scs r). tauto.
Qed.

(** The mask of the code is the mask of the specification. *)
Lemma base_case_filter_spec (rows : list Row) (r : Row) :
  base_case_filter rows r = Some true <-> base_case_mask rows r.
Proof.
  unfold base_case_filter, base_case_mask.
  rewrite !kleene_or_true, kleene_not_true, kleene_or_false, !is_null_true.
  unfold is_in_names. rewrite is_in_false.
  split.
  - intros [H | [[[= H1] [H2 _]] | H]]; [by left | | by right; right].
    right; left. split; [by apply bool_decide_eq_false in H1 | done].
  - intros [H | [[H1 H2] | H]]; [by left | | by right; right].
    destruct (property_name r) as [pn|] eqn:Hpn; [| by right; right].
    right; left. split; [f_equal; by apply bool_decide_eq_false |].
    split; [done | discriminate].
Qed.

Lemma get_model_data_unfold (scs : list string) (table : list Row) (p : Expr) :
  scenario_rows scs p table <> [] ->
  _get_model_data (Some scs) table p =
    Ok (scenario_rows scs p table
          ++ df_filter (fun r => Kleene.and (p r) (base_case_filter (scenario_rows scs p table) r))
               table).
Proof.
  intros Hne. unfold _get_model_data.
  destruct scs as [|s scs].
  - exfalso. apply Hne. clear Hne. unfold scenario_rows.
    induction table as [|r table IH]; [done |].
    rewrite filter_cons_False; [done |].
    rewrite fmap_nil. intros [_ H]. by apply elem_of_nil in H.
  - rewrite scenario_specific_data_spec.
    destruct (scenario_rows (s :: scs) p table) eqn:E; [done | reflexivity].
Qed.

(** ** Scenario resolution *)

(** C1 (amended).  When at least one row matches the predicate with a
    scenario of the active set, [_get_model_data] returns the scenario
    rows followed by the rows of the table that match the predicate and
    the mask: scenario is null, or (name not among the names of the
    scenario rows and property name not among their property names), or
    property name is null. *)
Theorem get_model_data_scenario_rows_then_masked
    (scs : list string) (table : list Row) (p : Expr) :
  scenario_rows scs p table <> [] ->
  _get_model_data (Some scs) table p =
    Ok (scenario_rows scs p table
          ++ filter (fun r => p r = Some true /\ base_case_mask (scenario_rows scs p table) r)
               table).
Proof.
  intros Hne. rewrite get_model_data_unfold by done.
  do 2 f_equal. unfold df_filter. apply list_filter_iff. intros r.
  by rewrite kleene_and_true, base_case_filter_spec.
Qed.

Lemma get_model_data_scenario_rows_then_masked_witness :
  scenario_rows ["High"] Sample.every_row Sample.table <> [] /\
  _get_model_data (Some ["High"]) Sample.table Sample.every_row =
    Ok [Sample.scenario_row; Sample.base_row].
Proof.
  split; [by vm_compute |].
  rewrite (get_model_data_scenario_rows_then_masked ["High"] Sample.table Sample.every_row)
    by (by vm_compute).
  by vm_compute.
Defined.

(** C1, the consequence as the specification states it, fails: the mask
    starts with "scenario is null", so the base-case row of [gen1] and
    [Max Capacity] stays in the resolved table next to the scenario row
    that covers the pair. *)
Lemma covered_base_row_is_kept :
  ~ covered_base_rows_excluded ["High"] Sample.table Sample.every_row.
Proof.
  intros H.
  specialize (H [Sample.scenario_row; Sample.base_row] Sample.scenario_row Sample.base_row).
  assert (property_name Sample.base_row = None) as Hnone; [| discriminate Hnone].
  apply H.
  - by vm_compute.
  - replace (scenario_rows ["High"] Sample.every_row Sample.table)
      with [Sample.scenario_row] by (by vm_compute).
    apply list_elem_of_here.
  - apply list_elem_of_further, list_elem_of_here.
  - reflexivity.
  - reflexivity.
  - reflexivity.
Qed.

(** C3 (amended).  With an empty active scenario set, or none set at
    all, [_get_model_data] raises [ModelError]; with a non-empty active
    set none of whose scenarios tags a row matching the predicate, it
    returns exactly the rows that match the predicate and have a null
    scenario. *)
Theorem get_model_data_base_case (scs : list string) (table : list Row) (p : Expr) :
  scs <> [] ->
  scenario_rows scs p table = [] ->
  _get_model_data (Some []) table p = Raise (ModelError NoValidScenarios)
  /\ _get_model_data None table p = Raise (ModelError NoValidScenarios)
  /\ _get_model_data (Some scs) table p =
       Ok (filter (fun r => p r = Some true /\ scenario r = None) table).
Proof.
  intros Hscs Hnone. split; [done |]. split; [done |].
  unfold _get_model_data. destruct scs as [|s scs]; [done |].
  rewrite scenario_specific_data_spec, Hnone.
  f_equal. unfold df_filter. apply list_filter_iff. intros r.
  by rewrite kleene_and_true, is_null_true.
Qed.

Lemma get_model_data_base_case_witness :
  _get_model_data (Some ["Low"]) Sample.table Sample.every_row = Ok [Sample.base_row].
Proof.
  destruct (get_model_data_base_case ["Low"] Sample.table Sample.every_row)
    as (_ & _ & ->); [done | by vm_compute | by vm_compute].
Defined.

(** C3, as the specification states it, fails: an empty scenario set
    does not give the base-case rows, it raises. *)
Lemma get_model_data_empty_scenarios_raises :
  _get_model_data (Some []) Sample.table Sample.every_row
    <> Ok (filter (fun r => Sample.every_row r = Some true /\ scenario r = None) Sample.table)
  /\ raises (_get_model_data (Some []) Sample.table Sample.every_row).
Proof. split; [discriminate | exact I]. Qed.

(** ** Scenario rows first, and the pivot *)






(** ** Scenario processing *)

(** C6 (amended).  [_process_scenarios] raises [ModelError] when it is
    given no model name and when the lookup of the model name returns
    more than one match; in both cases no attribute of the parser is
    set.  When the lookup returns no match it does not raise: it logs a
    warning and returns, leaving the model id and the scenarios unset. *)
Theorem process_scenarios_missing_or_ambiguous_model (db : PlexosDB) (st : ParserState) :
  _process_scenarios db None st = (Raise (ModelError RequiredModelNameNotFound), st)
  /\ (forall n, (1 < length (query_object_id db n))%nat ->
        _process_scenarios db (Some n) st
        = (Raise (ModelError (MultipleModelsWithTheSameName n)), st))
  /\ (forall n, query_object_id db n = [] ->
        _process_scenarios db (Some n) st
        = (Ok tt, log_warning (ModelNotFoundOnTheSystem n) st)).
Proof.
  split; [done |]. split.
  - intros n Hn. unfold _process_scenarios. by rewrite decide_True.
  - intros n Hn. unfold _process_scenarios. rewrite Hn. reflexivity.
Qed.

Lemma process_scenarios_missing_or_ambiguous_model_witness :
  _process_scenarios Sample.db_with_two_models (Some "Mid") Sample.fresh
    = (Raise (ModelError (MultipleModelsWithTheSameName "Mid")), Sample.fresh)
  /\ _process_scenarios Sample.db_without_models (Some "Mid") Sample.fresh
    = (Ok tt, log_warning (ModelNotFoundOnTheSystem "Mid") Sample.fresh).
Proof.
  split.
  - apply (process_scenarios_missing_or_ambiguous_model Sample.db_with_two_models).
    simpl. lia.
  - apply (process_scenarios_missing_or_ambiguous_model Sample.db_without_models).
    reflexivity.
Defined.

(** C6, as the specification states it, fails for a model that is not
    found: no [ModelError], a warning and a plain return. *)
Lemma process_scenarios_model_not_found_returns :
  query_object_id Sample.db_without_models "Mid" = []
  /\ ~ raises (_process_scenarios Sample.db_without_models (Some "Mid") Sample.fresh).1
  /\ warnings (_process_scenarios Sample.db_without_models (Some "Mid") Sample.fresh).2
     = [ModelNotFoundOnTheSystem "Mid"].
Proof. split; [done |]. split; [by intros [] | done]. Qed.

(** ** The property aggregator *)

Lemma append_empty_r (s : string) : s +:+ "" = s.
Proof. induction s as [|c s IH]; [done |]. change (String c (s +:+ "") = String c s). by f_equal. Qed.

Lemma append_nonempty_ne (s t : string) : t <> "" -> s <> s +:+ t.
Proof.
  intros Ht Heq. apply Ht.
  assert (s +:+ "" = s +:+ t) as Happ by (by rewrite append_empty_r).
  by apply (inj (String.app s)) in Happ.
Qed.

(** The synthetic name of a band differs from the mapped name. *)
Lemma band_field_name_fresh (m : string) (b : Z) : m <> m +:+ "_" +:+ pretty b.
Proof. apply append_nonempty_ne. discriminate. Qed.

(** C2.  On a property whose name the property map renames, the
    aggregator does not keep two bands apart: the test at line 901 looks
    the source name up in [property_counts], which is keyed by mapped
    names, so the record of band 2 takes the first branch again and
    replaces the value of band 1; no field [base_power_2] is made and the
    multi-band set stays empty. *)
Theorem parse_property_data_renamed_property_loses_band :
  _parse_property_data Sample.pint Sample.property_map Sample.two_bands
  = Ok ({[ "base_power" := VFloat 200 ]}, ∅).
Proof. by vm_compute. Qed.

Section Aggregator.

Variable pint : Pint.
Variable property_map : gmap string string.

(** Where the property map leaves the name as it is, two records of one
    property on different bands give two fields, the second under the
    name suffixed with the band, and the name enters the multi-band
    set. *)
Lemma parse_property_data_two_bands (p u1 u2 : string) (b1 b2 : Z)
    (v1 v2 : option Q) (un1 un2 : option string) (x1 x2 : value) :
  property_map !! p = None ->
  b1 <> b2 ->
  resolve_unit pint u1 = Ok un1 -> scaled v1 un1 = Ok x1 ->
  resolve_unit pint u2 = Ok un2 -> scaled v2 un2 = Ok x2 ->
  _parse_property_data pint property_map
    [PropertyRecord.mk b1 p v1 u1; PropertyRecord.mk b2 p v2 u2]
  = Ok (<[p +:+ "_" +:+ pretty b2 := x2]> {[ p := x1 ]}, {[ p ]}).
Proof.
  intros Hp Hb Hu1 Hx1 Hu2 Hx2.
  unfold _parse_property_data. simpl.
  unfold parse_record at 2. simpl. rewrite Hu1. simpl.
  rewrite lookup_empty, Hx1. simpl.
  unfold parse_record, mapped_name. simpl. rewrite Hu2, Hp. simpl.
  rewrite !lookup_insert_eq. simpl.
  rewrite decide_True by (apply not_elem_of_singleton; congruence).
  rewrite Hx2. simpl. do 2 f_equal. apply union_empty_l_L.
Qed.

(** Two records of one property on the same band leave one field, under
    the mapped name, with the value of the later record. *)
Lemma parse_property_data_same_band (p u1 u2 : string) (b : Z)
    (v1 v2 : option Q) (un1 un2 : option string) (x1 x2 : value) :
  resolve_unit pint u1 = Ok un1 -> scaled v1 un1 = Ok x1 ->
  resolve_unit pint u2 = Ok un2 -> scaled v2 un2 = Ok x2 ->
  _parse_property_data pint property_map
    [PropertyRecord.mk b p v1 u1; PropertyRecord.mk b p v2 u2]
  = Ok ({[ mapped_name property_map p := x2 ]}, ∅).
Proof.
  intros Hu1 Hx1 Hu2 Hx2.
  unfold _parse_property_data. simpl.
  unfold parse_record at 2. simpl. rewrite Hu1. simpl.
  rewrite lookup_empty, Hx1. simpl.
  unfold parse_record. simpl. rewrite Hu2. simpl.
  destruct (decide (p = mapped_name property_map p)) as [<-|Hne].
  - rewrite !lookup_insert_eq.
    rewrite decide_False by (intros Hb; by apply Hb, elem_of_singleton).
    rewrite Hx2. simpl. by rewrite insert_insert_eq.
  - rewrite lookup_insert_ne, lookup_empty by done.
    rewrite Hx2. simpl. by rewrite insert_insert_eq.
Qed.

End Aggregator.

(** ** The [available] field of generators and batteries *)





Lemma valid_fields_of_lookup (fields : list string) (m : gmap string value) (k : string)
    (v : value) :
  k ∈ fields -> m !! k = Some v -> is_None v = false ->
  valid_fields_of fields m !! k = Some v.
Proof.
  intros Hk Hm Hv. unfold valid_fields_of.
  apply map_lookup_filter_Some. by split.
Qed.


Lemma with_ext_lookup (valid_fields ext_data : gmap string value) (k : string) :
  k <> "ext" -> with_ext valid_fields ext_data !! k = FValue <$> valid_fields !! k.
Proof.
  intros Hk. unfold with_ext. case_decide.
  - apply lookup_fmap.
  - rewrite lookup_insert_ne by done. apply lookup_fmap.
Qed.






Lemma foldM_mapM {A B C : Type} (f : A -> result B) (g : C -> B -> result C)
    (l : list A) (l' : list B) (c : C) :
  mapM f l = Ok l' ->
  foldM (fun acc x => y ← f x; g acc y) c l = foldM g c l'.
Proof.
  revert l' c. induction l as [|x l IH]; intros l' c H; simpl in H.
  - by injection H as <-.
  - destruct (f x) as [y|e] eqn:Hx; [simpl in H | done].
    destruct (mapM f l) as [ys|e] eqn:Hl; [simpl in H | done].
    injection H as <-. simpl. rewrite Hx. simpl.
    destruct (g c y); simpl; [by apply IH | done].
Qed.

(** On rows that all hold data, the builders aggregate the records of
    the rows. *)
Lemma parse_group_records (pint : Pint) (property_map : gmap string string)
    (group_data : list Row) (records : list PropertyRecord) :
  mapM to_dict group_data = Ok records ->
  parse_group pint property_map group_data
  = _parse_property_data pint property_map records.
Proof.
  intros H. unfold parse_group, _parse_property_data.
  by rewrite (foldM_mapM _ _ _ records).
Qed.

Section Available.

Variable pint : Pint.
Variable config : Config.







End Available.




(** ** Missing profile files *)

Lemma foldM_app {A B : Type} (f : B -> A -> result B) (b : B) (l1 l2 : list A) :
  foldM f b (l1 ++ l2) = b' ← foldM f b l1; foldM f b' l2.
Proof.
  revert b. induction l1 as [|x l1 IH]; intros b; [done |].
  simpl. destruct (f b x) as [b'|e]; simpl; [apply IH | done].
Qed.

Lemma foldM_cons {A B : Type} (f : B -> A -> result B) (b : B) (x : A) (l : list A) :
  foldM f b (x :: l) = b' ← f b x; foldM f b' l.
Proof. reflexivity. Qed.

Lemma same_graph_refl (b : Build) : same_graph b b.
Proof. by split. Qed.

Lemma same_graph_warn (w : warning) (b1 b2 : Build) :
  same_graph b1 b2 -> same_graph (warn w b1) b2.
Proof. by intros [? ?]. Qed.

Lemma same_graph_warns (ws1 ws2 : list warning) (b1 b2 : Build) :
  same_graph b1 b2 ->
  same_graph (foldl (fun b w => warn w b) b1 ws1) (foldl (fun b w => warn w b) b2 ws2).
Proof.
  revert b1 b2 ws2. induction ws1 as [|w ws1 IH]; intros b1 b2 ws2 H; simpl.
  - revert b2 H. induction ws2 as [|w ws2 IH2]; intros b2 H; simpl; [done |].
    apply IH2. destruct H as [H1 H2]. by split.
  - apply IH. by apply same_graph_warn.
Qed.

(** A fold whose step respects the output graph respects it. *)
Lemma foldM_same_outcome {A : Type} (f : Build -> A -> result Build) (l : list A) :
  (forall b1 b2 x, same_graph b1 b2 -> same_outcome (f b1 x) (f b2 x)) ->
  forall b1 b2, same_graph b1 b2 -> same_outcome (foldM f b1 l) (foldM f b2 l).
Proof.
  intros Hf. induction l as [|x l IH]; intros b1 b2 H; simpl; [done |].
  specialize (Hf b1 b2 x H).
  destruct (f b1 x) as [b1'|e1], (f b2 x) as [b2'|e2]; simpl in *; try done.
  by apply IH.
Qed.

Section MissingFile.

Variable fs : FileSystem.
Variable config : Config.
Variable bus_region_membership : string -> list string.

Lemma get_component_same_graph (cls n : string) (b1 b2 : Build) :
  same_graph b1 b2 -> get_component cls n b1 = get_component cls n b2.
Proof. intros [H _]. unfold get_component. by rewrite H. Qed.

(** The step of the load profiles reads the build only through its
    components. *)
Lemma construct_load_profile_same_outcome (b1 b2 : Build) (group : string * list Row) :
  same_graph b1 b2 ->
  same_outcome (construct_load_profile fs config bus_region_membership b1 group)
               (construct_load_profile fs config bus_region_membership b2 group).
Proof.
  intros H. unfold construct_load_profile. destruct group as [region region_data].
  destruct (_csv_file_handler fs (weather_year config) "max_active_power" region_data)
    as [[ts ws]|e]; simpl; [| done].
  pose proof (same_graph_warns ws ws b1 b2 H) as Hw.
  destruct ts as [ts|]; [| done].
  destruct (np_max (data ts)) as [max_load|e]; simpl; [| done].
  apply foldM_same_outcome; [| done].
  intros c1 c2 bus_name Hc.
  rewrite (get_component_same_graph _ _ c1 c2 Hc).
  destruct (get_component "ACBus" bus_name c2) as [bus|e]; simpl; [| done].
  destruct Hc as [Hc1 Hc2]. unfold same_graph, add_time_series, add_component. simpl.
  by rewrite Hc1, Hc2.
Qed.

(** C8.  When the text of the first row of a property names a file that
    does not exist, [_csv_file_handler] logs the warning and returns no
    series, without raising; the load profile of that region changes
    neither the components nor the series of the system; and the load
    profiles as a whole end as they do without that region, with the
    same components and series or with the same exception. *)
Theorem missing_file_is_skipped (property_name region fpath_text : string)
    (first : Row) (rest : list Row) :
  text first = Some fpath_text ->
  fs (relative_path_of fpath_text) = FileNotFoundError ->
  (exists ws,
      _csv_file_handler fs (weather_year config) property_name (first :: rest)
      = Ok (None, ws)
      /\ FileNotFound (relative_path_of fpath_text) ∈ ws)
  /\ (forall b, exists b',
        construct_load_profile fs config bus_region_membership b (region, first :: rest)
        = Ok b'
        /\ same_graph b' b
        /\ FileNotFound (relative_path_of fpath_text) ∈ build_log b')
  /\ (forall b before after,
        same_outcome
          (foldM (construct_load_profile fs config bus_region_membership) b
             (before ++ (region, first :: rest) :: after))
          (foldM (construct_load_profile fs config bus_region_membership) b
             (before ++ after))).
Proof.
  intros Htext Hfs.
  assert (forall pn, exists ws,
            _csv_file_handler fs (weather_year config) pn (first :: rest) = Ok (None, ws)
            /\ FileNotFound (relative_path_of fpath_text) ∈ ws) as Hhandler.
  { intros pn. unfold _csv_file_handler. rewrite Htext, Hfs.
    eexists. split; [done |]. apply elem_of_app. right. apply list_elem_of_here. }
  assert (forall b, exists b',
            construct_load_profile fs config bus_region_membership b (region, first :: rest)
            = Ok b'
            /\ same_graph b' b
            /\ FileNotFound (relative_path_of fpath_text) ∈ build_log b') as Hstep.
  { intros b. destruct (Hhandler "max_active_power") as (ws & Hws & Hin).
    unfold construct_load_profile. rewrite Hws. simpl.
    eexists. split; [done |]. split.
    - apply (same_graph_warns ws [] b b), same_graph_refl.
    - clear Hws. revert b. induction ws as [|w ws IH] using rev_ind; intros b.
      + by apply elem_of_nil in Hin.
      + rewrite foldl_app. simpl. apply elem_of_app in Hin as [Hin | Hin].
        * apply elem_of_app. left. by apply IH.
        * apply list_elem_of_singleton in Hin as <-.
          apply elem_of_app. right. apply list_elem_of_here. }
  split; [apply Hhandler |]. split; [done |].
  intros b before after. rewrite !foldM_app.
  destruct (foldM (construct_load_profile fs config bus_region_membership) b before)
    as [b1|e]; cbn [mbind result_bind]; [| done].
  rewrite foldM_cons.
  destruct (Hstep b1) as (b1' & -> & Hsame & _). cbn [mbind result_bind].
  apply foldM_same_outcome; [| done].
  intros c1 c2 g. apply construct_load_profile_same_outcome.
Qed.

End MissingFile.

Lemma missing_file_is_skipped_witness :
  Sample.no_files (relative_path_of "profiles\load.csv") = FileNotFoundError
  /\ (exists ws,
        _csv_file_handler Sample.no_files (weather_year Sample.config)
          "max_active_power" [Sample.file_row] = Ok (None, ws)
        /\ FileNotFound (relative_path_of "profiles\load.csv") ∈ ws)
  /\ exists b',
       construct_load_profile Sample.no_files Sample.config Sample.no_buses
         Sample.empty_build ("region1", [Sample.file_row]) = Ok b'
       /\ same_graph b' Sample.empty_build.
Proof.
  split; [reflexivity |].
  destruct (missing_file_is_skipped Sample.no_files Sample.config Sample.no_buses
              "max_active_power" "region1" "profiles\load.csv" Sample.file_row [])
    as (Hhandler & Hstep & _); [reflexivity | reflexivity |].
  split; [exact Hhandler |].
  destruct (Hstep Sample.empty_build) as (b' & Hb' & Hsame & _).
  exists b'. by split.
Defined.

(** ** Time slices *)

(** C7, as the specification states it, fails: the load profiles of the
    build hand the rows of every region to the CSV file handler, which
    reads the first month code as a file name; with no such file the
    region gets no series and no load. *)
Lemma load_profiles_do_not_read_month_codes :
  text <$> Sample.twelve_months = (fun m => Some (month_code m)) <$> seqZ 1 12
  /\ exists b',
       _construct_load_profiles Sample.no_files Sample.config Sample.bus1_everywhere
         Sample.class_enum Sample.with_scenario Sample.twelve_months Sample.one_bus
       = Ok b'
       /\ time_series b' = []
       /\ components b' = [Sample.bus1]
       /\ build_log b' = [MoreThanOneRow "max_active_power"; FileNotFound (Path "M1")].
Proof.
  split; [by vm_compute |].
  eexists. split; [by vm_compute |]. by split.
Qed.

(** A month code of the year reads as its month. *)
Lemma month_code_reads (m : Z) :
  1 <= m <= 12 ->
  py_int (strip_M (month_code m)) = Ok m
  /\ ends_with ".csv" (month_code m) = false
  /\ String.prefix "M" (month_code m) = true.
Proof.
  intros Hm.
  assert (m ∈ seqZ 1 12) as Hin.
  { apply list_elem_of_lookup. exists (Z.to_nat (m - 1)).
    rewrite lookup_seqZ_lt by lia. f_equal. lia. }
  clear Hm. change (seqZ 1 12) with [1; 2; 3; 4; 5; 6; 7; 8; 9; 10; 11; 12] in Hin.
  repeat (apply elem_of_cons in Hin as [-> | Hin]; [by vm_compute |]).
  by apply elem_of_nil in Hin.
Qed.

Lemma month_tag_of_code (r : Row) (m : Z) :
  1 <= m <= 12 -> text r = Some (month_code m) -> month_tag r = m.
Proof.
  intros Hm Ht. unfold month_tag, text_tag. rewrite Ht.
  by destruct (month_code_reads m Hm) as [-> _].
Qed.

Section TimeSlices.

Variable months : list Z.

(** On records whose month codes all read, the loop of the handler
    raises nothing and is the fold of the assignments. *)
Lemma slice_loop_pure (records : list Row) (series : list (option Q)) :
  (forall r, r ∈ records -> exists m, 1 <= m <= 12 /\ text r = Some (month_code m)) ->
  foldM
    (fun series record =>
       text ← from_option Ok (Raise AttributeError) (text record);
       month ← py_int (strip_M text);
       Ok (assign_month months month (property_value record) series))
    series records
  = Ok (foldl (assign_record months) series records).
Proof.
  revert series. induction records as [|r records IH]; intros series Hall; [done |].
  destruct (Hall r) as (m & Hm & Ht); [apply list_elem_of_here |].
  simpl. rewrite Ht. simpl.
  destruct (month_code_reads m Hm) as [Hread _]. rewrite Hread. simpl.
  rewrite IH.
  - do 2 f_equal. unfold assign_record, month_tag, text_tag. by rewrite Ht, Hread.
  - intros r' Hr'. apply Hall. by apply list_elem_of_further.
Qed.

Lemma assign_record_length (series : list (option Q)) (record : Row) :
  length months = length series ->
  length (assign_record months series record) = length series.
Proof.
  intros H. unfold assign_record, assign_month.
  rewrite length_zip_with_l_eq by done. done.
Qed.

Lemma slice_fold_length (records : list Row) (series : list (option Q)) :
  length months = length series ->
  length (foldl (assign_record months) series records) = length series.
Proof.
  revert series. induction records as [|r records IH]; intros series H; [done |].
  simpl. rewrite IH; rewrite assign_record_length; done.
Qed.

Lemma assign_record_lookup (series : list (option Q)) (record : Row) (i : nat)
    (m : Z) (v : option Q) :
  months !! i = Some m -> series !! i = Some v ->
  assign_record months series record !! i
  = Some (if decide (m = month_tag record) then property_value record else v).
Proof.
  intros Hm Hv. unfold assign_record, assign_month.
  rewrite lookup_zip_with, Hm, Hv. done.
Qed.

(** After the loop, an hour of month [m] holds the value of the record
    tagged [m], when the tags of the records are all different. *)
Lemma slice_fold_lookup (records : list Row) (series : list (option Q)) (i : nat)
    (m : Z) (v : option Q) (r : Row) :
  months !! i = Some m -> series !! i = Some v ->
  NoDup (month_tag <$> records) ->
  r ∈ records -> month_tag r = m ->
  foldl (assign_record months) series records !! i = Some (property_value r).
Proof.
  intros Hm. revert series v.
  induction records as [|r' records IH]; intros series v Hv Hnodup Hr Htag.
  - by apply elem_of_nil in Hr.
  - rewrite fmap_cons in Hnodup. apply NoDup_cons in Hnodup as [Hfresh Hnodup].
    simpl. apply elem_of_cons in Hr as [-> | Hr].
    + (* the record of the month comes first: no later record touches it *)
      pose proof (assign_record_lookup series r' i m v Hm Hv) as Hfirst.
      rewrite decide_True in Hfirst by done.
      clear IH Hv. revert Hfirst. generalize (assign_record months series r').
      induction records as [|r2 records IH2]; intros s Hs; [done |].
      rewrite fmap_cons in Hnodup, Hfresh.
      apply NoDup_cons in Hnodup as [_ Hnodup].
      apply not_elem_of_cons in Hfresh as [Hne Hfresh].
      simpl. apply IH2; [done | done |].
      rewrite (assign_record_lookup s r2 i m _ Hm Hs).
      rewrite decide_False; [done |]. congruence.
    + eapply IH; [| done | done | done].
      by apply (assign_record_lookup series r' i m v).
Qed.

End TimeSlices.

(** *** The hours of a year *)

Lemma length_bind_const {A B : Type} (f : A -> list B) (l : list A) (n : nat) :
  (forall x, length (f x) = n) -> length (l ≫= f) = (length l * n)%nat.
Proof.
  intros Hf. induction l as [|x l IH]; [done |].
  change ((x :: l) ≫= f) with (f x ++ (l ≫= f)).
  rewrite length_app, IH, Hf. simpl. lia.
Qed.

Lemma length_hours_of_month (y m : Z) :
  Z.of_nat (length (hours_of_month y m)) = 24 * Z.max 0 (days_in_month y m).
Proof.
  unfold hours_of_month.
  rewrite (length_bind_const _ _ 24).
  - rewrite length_seqZ. lia.
  - intros d. rewrite (length_bind_const _ _ 1); [| done].
    rewrite length_seqZ. done.
Qed.

Lemma length_date_time_array (y : Z) :
  Z.of_nat (length (date_time_array y)) = 24 * days_in_year y.
Proof.
  unfold date_time_array.
  change (seqZ 1 12) with [1; 2; 3; 4; 5; 6; 7; 8; 9; 10; 11; 12].
  change (Z.of_nat
            (length (hours_of_month y 1 ++ hours_of_month y 2 ++ hours_of_month y 3
                     ++ hours_of_month y 4 ++ hours_of_month y 5 ++ hours_of_month y 6
                     ++ hours_of_month y 7 ++ hours_of_month y 8 ++ hours_of_month y 9
                     ++ hours_of_month y 10 ++ hours_of_month y 11
                     ++ hours_of_month y 12 ++ []))
          = 24 * days_in_year y).
  rewrite !length_app, !Nat2Z.inj_add, !length_hours_of_month.
  unfold days_in_year, days_in_month. destruct (is_leap y); simpl; lia.
Qed.

(** Every hour of the array lies in a month of the year, and the month
    numpy computes for it is that month. *)
Lemma date_time_array_month (y : Z) (dt : Z * Z * Z * Z) :
  dt ∈ date_time_array y ->
  1 <= month_of dt <= 12 /\ months_since_epoch dt `mod` 12 + 1 = month_of dt.
Proof.
  unfold date_time_array. intros H.
  apply list_elem_of_bind in H as (m & H & Hm).
  unfold hours_of_month in H.
  apply list_elem_of_bind in H as (d & H & _).
  apply list_elem_of_bind in H as (h & H & _).
  apply list_elem_of_singleton in H as ->.
  assert (1 <= m <= 12) as Hrange.
  { apply list_elem_of_lookup in Hm as (i & Hi).
    assert (i < 12)%nat as Hlt.
    { apply lookup_lt_Some in Hi. by rewrite length_seqZ in Hi. }
    rewrite lookup_seqZ_lt in Hi by lia. injection Hi as <-. lia. }
  unfold month_of, months_since_epoch. simpl. split; [done |].
  replace ((y - 1970) * 12 + (m - 1)) with ((m - 1) + (y - 1970) * 12) by lia.
  rewrite Z_mod_plus_full, Z.mod_small by lia. lia.
Qed.

Lemma month_code_inj (m1 m2 : Z) : month_code m1 = month_code m2 -> m1 = m2.
Proof.
  unfold month_code. intros H.
  apply (inj (String.app "M")) in H. by apply (inj pretty) in H.
Qed.

Lemma elem_of_month_codes (t : option string) :
  t ∈ (fun m => Some (month_code m)) <$> seqZ 1 12 <->
  exists m, 1 <= m <= 12 /\ t = Some (month_code m).
Proof.
  rewrite list_elem_of_fmap. split.
  - intros (m & -> & Hm). exists m. split; [| done].
    apply list_elem_of_lookup in Hm as (i & Hi).
    assert (i < 12)%nat as Hlt.
    { apply lookup_lt_Some in Hi. by rewrite length_seqZ in Hi. }
    rewrite lookup_seqZ_lt in Hi by lia. injection Hi as <-. lia.
  - intros (m & Hm & ->). exists m. split; [done |].
    apply list_elem_of_lookup. exists (Z.to_nat (m - 1)).
    rewrite lookup_seqZ_lt by lia. f_equal. lia.
Qed.

Lemma NoDup_month_codes : NoDup ((fun m => Some (month_code m)) <$> seqZ 1 12).
Proof.
  apply NoDup_fmap_2_strong; [| apply NoDup_seqZ].
  intros m1 m2 _ _ H. apply month_code_inj. congruence.
Qed.

(** Twelve records tagged with the twelve month codes, in any order. *)
Section TwelveMonths.

Variable records : list Row.
Hypothesis tagged : text <$> records ≡ₚ (fun m => Some (month_code m)) <$> seqZ 1 12.

Lemma twelve_records : length records = 12%nat.
Proof.
  rewrite <- (length_fmap text), tagged, length_fmap, length_seqZ. done.
Qed.

Lemma records_tagged (r : Row) :
  r ∈ records -> exists m, 1 <= m <= 12 /\ text r = Some (month_code m).
Proof.
  intros Hr. apply elem_of_month_codes. rewrite <- tagged.
  by apply list_elem_of_fmap_2.
Qed.

Lemma month_has_record (m : Z) :
  1 <= m <= 12 -> exists r, r ∈ records /\ text r = Some (month_code m).
Proof.
  intros Hm.
  assert (Some (month_code m) ∈ text <$> records) as H.
  { rewrite tagged. apply elem_of_month_codes. by exists m. }
  apply list_elem_of_fmap in H as (r & Hr & Hin). by exists r.
Qed.

Lemma NoDup_month_tags : NoDup (month_tag <$> records).
Proof.
  change (month_tag <$> records) with ((text_tag ∘ text) <$> records).
  rewrite list_fmap_compose.
  apply NoDup_fmap_2_strong; [| rewrite tagged; apply NoDup_month_codes].
  intros t1 t2 H1 H2 Htag.
  rewrite tagged in H1, H2.
  apply elem_of_month_codes in H1 as (m1 & Hm1 & ->).
  apply elem_of_month_codes in H2 as (m2 & Hm2 & ->).
  unfold text_tag in Htag.
  destruct (month_code_reads m1 Hm1) as [Hr1 _].
  destruct (month_code_reads m2 Hm2) as [Hr2 _].
  rewrite Hr1, Hr2 in Htag. by subst.
Qed.

Lemma text_handler_takes_time_slices (fs : FileSystem) (y : Z) (pn : string) :
  _text_handler fs y pn records = _time_slice_handler y pn records.
Proof.
  unfold _text_handler.
  assert (all_text (ends_with ".csv") records = false) as ->.
  { destruct (month_has_record 1) as (r & Hr & Ht); [lia |].
    unfold all_text.
    destruct (forallb _ records) eqn:E; [| done].
    rewrite forallb_forall in E. apply list_elem_of_In, E in Hr.
    by rewrite Ht in Hr. }
  assert (all_text (String.prefix "M") records = true) as ->; [| done].
  unfold all_text. apply forallb_forall. intros r Hr.
  apply list_elem_of_In in Hr.
  destruct (records_tagged r Hr) as (m & Hm & ->). cbn [from_option].
  by destruct (month_code_reads m Hm) as (_ & _ & ->).
Qed.

End TwelveMonths.

(** C7 (amended).  For a property whose rows are exactly twelve records
    tagged with the month codes M1 to M12, the time-slice handler, which
    the text handler calls on such rows, returns an hourly series that
    starts on the first of January of the weather year and spans the
    whole year, in which every hour of a month holds the value of the
    record of that month; on a number of records other than twelve it
    logs a warning and returns no series.  (The load profiles of the
    regions do not go through this handler.) *)
Theorem time_slices_give_hourly_series (fs : FileSystem) (y : Z) (pn : string)
    (records : list Row) :
  1 <= y <= 9999 ->
  text <$> records ≡ₚ (fun m => Some (month_code m)) <$> seqZ 1 12 ->
  (exists ts,
      _time_slice_handler y pn records = Ok (Some ts, [])
      /\ _text_handler fs y pn records = Ok (Some ts, [])
      /\ variable_name ts = pn
      /\ initial_time ts = (y, 1, 1)
      /\ resolution_hours ts = 1
      /\ Z.of_nat (length (data ts)) = 24 * days_in_year y
      /\ (forall i dt, date_time_array y !! i = Some dt ->
            exists r, r ∈ records /\ text r = Some (month_code (month_of dt)))
      /\ (forall i dt r, date_time_array y !! i = Some dt -> r ∈ records ->
            text r = Some (month_code (month_of dt)) ->
            data ts !! i = Some (property_value r)))
  /\ (forall others, length others <> 12%nat ->
        _time_slice_handler y pn others = Ok (None, [PartialTimeSlices pn])).
Proof.
  intros Hy Htagged. split.
  - set (months := (fun dt => months_since_epoch dt `mod` 12 + 1) <$> date_time_array y).
    set (zeros := replicate (length (date_time_array y)) (Some 0%Q)).
    assert (length months = length zeros) as Hlen.
    { unfold months, zeros. by rewrite length_fmap, length_replicate. }
    assert (_time_slice_handler y pn records
            = Ok (Some (mkSeries pn (y, 1, 1) 1 (foldl (assign_record months) zeros records)),
                  [])) as Hslice.
    { unfold _time_slice_handler.
      rewrite (bool_decide_eq_true_2 (1 <= y <= 9999)) by done.
      rewrite (bool_decide_eq_true_2 _ (twelve_records records Htagged)).
      cbn [negb]. fold months zeros.
      rewrite slice_loop_pure; [done |]. apply records_tagged, Htagged. }
    eexists. split; [exact Hslice |].
    split; [by rewrite text_handler_takes_time_slices |].
    cbn [variable_name initial_time resolution_hours data].
    split; [done |]. split; [done |]. split; [done |]. split; [| split].
    + rewrite slice_fold_length by done.
      unfold zeros. rewrite length_replicate. apply length_date_time_array.
    + intros i dt Hdt.
      apply list_elem_of_lookup_2, date_time_array_month in Hdt as [Hm _].
      by apply month_has_record.
    + intros i dt r Hdt Hr Ht.
      pose proof (list_elem_of_lookup_2 _ _ _ Hdt) as Hin.
      apply date_time_array_month in Hin as [Hm Hnp].
      apply slice_fold_lookup with (m := month_of dt) (v := Some 0%Q).
      * unfold months. rewrite list_lookup_fmap, Hdt. simpl. by rewrite Hnp.
      * unfold zeros. apply lookup_replicate_2. by apply lookup_lt_Some in Hdt.
      * by apply NoDup_month_tags.
      * done.
      * by apply month_tag_of_code.
  - intros others Hothers. unfold _time_slice_handler.
    rewrite (bool_decide_eq_true_2 (1 <= y <= 9999)) by done.
    by rewrite bool_decide_eq_false_2.
Qed.

Lemma time_slices_give_hourly_series_witness :
  1 <= 2012 <= 9999
  /\ exists ts,
       _time_slice_handler 2012 "Load" Sample.twelve_months = Ok (Some ts, [])
       /\ Z.of_nat (length (data ts)) = 24 * 366
       /\ data ts !! 0%nat = Some (Some 100%Q)
       /\ _time_slice_handler 2012 "Load" [Sample.month_row 1]
          = Ok (None, [PartialTimeSlices "Load"]).
Proof.
  split; [lia |].
  destruct (time_slices_give_hourly_series Sample.no_files 2012 "Load" Sample.twelve_months)
    as ((ts & Hts & _ & _ & _ & _ & Hlen & _ & Hval) & Hpartial); [lia | by vm_compute |].
  exists ts. split; [done |]. split; [exact Hlen |]. split.
  - apply (Hval 0%nat (2012, 1, 1, 0) (Sample.month_row 1)).
    + reflexivity.
    + apply list_elem_of_here.
    + reflexivity.
  - apply Hpartial. simpl. lia.
Defined.

(** * Further properties of the parser *)

(** ** Scenario resolution keeps to the predicate *)

(** The two ways [_get_model_data] returns, in the specification's
    terms. *)
Lemma get_model_data_cases (scs : list string) (table : list Row) (p : Expr) :
  scs <> [] ->
  (scenario_rows scs p table = []
   /\ _get_model_data (Some scs) table p
      = Ok (filter (fun r => p r = Some true /\ scenario r = None) table))
  \/ (scenario_rows scs p table <> []
      /\ _get_model_data (Some scs) table p
         = Ok (scenario_rows scs p table
                 ++ filter (fun r => p r = Some true
                                     /\ base_case_mask (scenario_rows scs p table) r)
                      table)).
Proof.
  intros Hscs.
  destruct (decide (scenario_rows scs p table = [])) as [Hnone | Hsome].
  - left. split; [done |].
    unfold _get_model_data. destruct scs as [|s scs]; [done |].
    rewrite scenario_specific_data_spec, Hnone.
    f_equal. unfold df_filter. apply list_filter_iff. intros r.
    by rewrite kleene_and_true, is_null_true.
  - right. split; [done |].
    rewrite get_model_data_unfold by done.
    do 2 f_equal. unfold df_filter. apply list_filter_iff. intros r.
    by rewrite kleene_and_true, base_case_filter_spec.
Qed.

Lemma get_model_data_returns (scs : list string) (table : list Row) (p : Expr) :
  scs <> [] -> exists res, _get_model_data (Some scs) table p = Ok res.
Proof.
  intros Hscs.
  destruct (get_model_data_cases scs table p Hscs) as [[_ ->] | [_ ->]]; by eexists.
Qed.

(** X1.  With a non-empty active scenario set, [_get_model_data] returns
    a table; each of its rows is a row of the property table that matches
    the predicate, and no matching row with a null scenario or with an
    active scenario is lost. *)
Theorem get_model_data_sound_and_complete
    (scs : list string) (table : list Row) (p : Expr) :
  scs <> [] ->
  exists res,
    _get_model_data (Some scs) table p = Ok res
    /\ (forall r, r ∈ res -> r ∈ table /\ p r = Some true)
    /\ (forall r, r ∈ table -> p r = Some true ->
          scenario r = None \/ scenario r ∈ (Some <$> scs) -> r ∈ res).
Proof.
  intros Hscs.
  destruct (get_model_data_cases scs table p Hscs) as [[Hnone ->] | [Hsome ->]].
  - eexists. split; [done |]. split.
    + intros r Hr. apply list_elem_of_filter in Hr. tauto.
    + intros r Hr Hp [Hnull | Hactive].
      * apply list_elem_of_filter. tauto.
      * exfalso. eapply (filter_nil_not_elem_of _ _ r Hnone); [| done]. by split.
  - eexists. split; [done |]. split.
    + intros r Hr. apply elem_of_app in Hr as [Hr | Hr];
        apply list_elem_of_filter in Hr; tauto.
    + intros r Hr Hp [Hnull | Hactive]; apply elem_of_app.
      * right. apply list_elem_of_filter. split; [| done]. split; [done |]. by left.
      * left. apply list_elem_of_filter. by split.
Qed.

Lemma get_model_data_sound_and_complete_witness :
  exists res,
    _get_model_data (Some ["High"]) Sample.table Sample.every_row = Ok res
    /\ Sample.base_row ∈ res /\ Sample.scenario_row ∈ res.
Proof.
  destruct (get_model_data_sound_and_complete ["High"] Sample.table Sample.every_row)
    as (res & Hres & _ & Hall); [done |].
  exists res. split; [done |]. split.
  - apply Hall; [apply list_elem_of_here | done | by left].
  - apply Hall; [apply list_elem_of_further, list_elem_of_here | done |].
    right. apply list_elem_of_here.
Defined.

(** ** Scenario processing, then resolution *)



(** X3.  A model name without a match is let through by
    [_process_scenarios] with a warning, but it leaves the scenarios
    unset, and the first [_get_model_data] after it raises
    [ModelError]. *)
Theorem unknown_model_fails_at_resolution
    (db : PlexosDB) (n : string) (st : ParserState) (table : list Row) (p : Expr) :
  query_object_id db n = [] ->
  scenarios st = None ->
  (_process_scenarios db (Some n) st).1 = Ok tt
  /\ get_model_data (_process_scenarios db (Some n) st).2 table p
     = Raise (ModelError NoValidScenarios).
Proof.
  intros Hid Hst. unfold _process_scenarios. rewrite Hid. simpl.
  split; [done |].
  unfold get_model_data, log_warning. simpl. by rewrite Hst.
Qed.

Lemma unknown_model_fails_at_resolution_witness :
  get_model_data
    (_process_scenarios Sample.db_without_models (Some "Mid") Sample.fresh).2
    Sample.table Sample.every_row
  = Raise (ModelError NoValidScenarios).
Proof.
  apply (unknown_model_fails_at_resolution Sample.db_without_models "Mid" Sample.fresh);
    reflexivity.
Defined.

(** ** More on the property aggregator *)

Lemma foldM_invariant {A B : Type} (P : B -> Prop) (f : B -> A -> result B)
    (l : list A) (b b' : B) :
  P b ->
  (forall b x b', P b -> f b x = Ok b' -> P b') ->
  foldM f b l = Ok b' -> P b'.
Proof.
  intros Hb Hstep. revert b Hb. induction l as [|x l IH]; intros b Hb H; simpl in H.
  - by injection H as <-.
  - destruct (f b x) as [b1|e] eqn:E; [simpl in H | done].
    apply (IH b1); [by apply (Hstep b x) | done].
Qed.

Lemma parse_record_invariant (pint : Pint) (pm : gmap string string)
    (acc acc' : Aggregate) (record : PropertyRecord) :
  aggregate_invariant acc ->
  parse_record pint pm acc record = Ok acc' ->
  aggregate_invariant acc'.
Proof.
  intros [Hcounts Hmulti] H. unfold parse_record in H.
  destruct (resolve_unit pint (PropertyRecord.property_unit record)) as [unit|];
    [simpl in H | done].
  destruct (scaled (PropertyRecord.property_value record) unit) as [v|] eqn:Hv.
  2: { repeat case_match; done. }
  assert (forall (k : string) (x : value) (m : gmap string value) (j : string),
            is_Some (m !! j) -> is_Some (<[k := x]> m !! j)) as Hgrow.
  { intros k x m j Hj. apply lookup_insert_is_Some.
    destruct (decide (k = j)); [by left | by right]. }
  assert (forall (k : string) (x : gset Z) (m : gmap string (gset Z)) (j : string),
            is_Some (m !! j) -> is_Some (<[k := x]> m !! j)) as Hgrow'.
  { intros k x m j Hj. apply lookup_insert_is_Some.
    destruct (decide (k = j)); [by left | by right]. }
  destruct (property_counts acc !! PropertyRecord.property_name record) as [seen|].
  - destruct (property_counts acc !! mapped_name pm (PropertyRecord.property_name record))
      as [bands|] eqn:Hbands; [| done].
    case_decide; simpl in H; injection H as <-; split; simpl.
    + intros k Hk. apply Hgrow. apply Hcounts.
      apply lookup_insert_is_Some in Hk as [<- | [_ Hk]]; [by rewrite Hbands | done].
    + intros m Hm. apply elem_of_union in Hm as [Hm | Hm].
      * destruct (Hmulti m Hm) as [Hc [b Hb]].
        split; [by apply Hgrow' |]. exists b. by apply Hgrow.
      * apply elem_of_singleton in Hm as ->.
        split; [by rewrite lookup_insert_eq |].
        exists (PropertyRecord.band record). by rewrite lookup_insert_eq.
    + intros k Hk. apply Hgrow. by apply Hcounts.
    + intros m Hm. destruct (Hmulti m Hm) as [Hc [b Hb]].
      split; [done |]. exists b. by apply Hgrow.
  - simpl in H. injection H as <-. split; simpl.
    + intros k Hk.
      apply lookup_insert_is_Some in Hk as [<- | [_ Hk]];
        [by rewrite lookup_insert_eq | by apply Hgrow, Hcounts].
    + intros m Hm. destruct (Hmulti m Hm) as [Hc [b Hb]].
      split; [by apply Hgrow' |]. exists b. by apply Hgrow.
Qed.

(** X4.  Whatever the records, when the aggregator returns, every name
    of its multi-band set has a field of its own in the returned mapping
    and a field suffixed with an underscore and a band. *)
Theorem multi_band_names_have_fields (pint : Pint) (pm : gmap string string)
    (records : list PropertyRecord) (bag : gmap string value) (multi : gset string) :
  _parse_property_data pint pm records = Ok (bag, multi) ->
  forall m, m ∈ multi ->
    is_Some (bag !! m) /\ exists b : Z, is_Some (bag !! (m +:+ "_" +:+ pretty b)).
Proof.
  unfold _parse_property_data. intros H m Hm.
  destruct (foldM (parse_record pint pm) (mkAggregate ∅ ∅ ∅) records) as [acc|] eqn:E;
    [simpl in H | done].
  injection H as <- <-.
  assert (aggregate_invariant acc) as [Hcounts Hmulti].
  { apply (foldM_invariant aggregate_invariant (parse_record pint pm) records
             (mkAggregate ∅ ∅ ∅) acc); [| | done].
    - split; simpl.
      + intros k Hk. rewrite lookup_empty in Hk. by destruct Hk.
      + intros k Hk. by apply not_elem_of_empty in Hk.
    - intros b x b'. apply parse_record_invariant. }
  destruct (Hmulti m Hm) as [Hc Hb]. split; [by apply Hcounts | done].
Qed.

Lemma multi_band_names_have_fields_witness :
  _parse_property_data Sample.pint ∅ Sample.two_bands
  = Ok (<["Max Capacity_2" := VFloat 200]> {[ "Max Capacity" := VFloat 100 ]},
        {[ "Max Capacity" ]})
  /\ is_Some ((<["Max Capacity_2" := VFloat 200]>
                 ({[ "Max Capacity" := VFloat 100 ]} : gmap string value))
              !! "Max Capacity").
Proof.
  assert (_parse_property_data Sample.pint ∅ Sample.two_bands
          = Ok (<["Max Capacity_2" := VFloat 200]> {[ "Max Capacity" := VFloat 100 ]},
                {[ "Max Capacity" ]})) as H by (by vm_compute).
  split; [exact H |].
  apply (multi_band_names_have_fields _ _ _ _ _ H "Max Capacity").
  by apply elem_of_singleton.
Defined.

Section AggregatorEdges.

Variable pint : Pint.
Variable pm : gmap string string.

(** X5.  When the property map renames a first property to the source
    name of a second one, and renames that second one too, a record of
    the first followed by a record of the second makes the aggregator
    raise [KeyError]: line 901 finds the source name of the second among
    the counted names, and line 906 looks its mapped name up there. *)
Theorem parse_property_data_raises_key_error (p1 p2 m u1 u2 : string) (b1 b2 : Z)
    (v1 v2 : option Q) (un1 un2 : option string) (x1 : value) :
  pm !! p1 = Some p2 ->
  pm !! p2 = Some m ->
  m <> p2 ->
  resolve_unit pint u1 = Ok un1 -> scaled v1 un1 = Ok x1 ->
  resolve_unit pint u2 = Ok un2 ->
  _parse_property_data pint pm
    [PropertyRecord.mk b1 p1 v1 u1; PropertyRecord.mk b2 p2 v2 u2]
  = Raise (KeyError m).
Proof.
  intros Hp1 Hp2 Hne Hu1 Hx1 Hu2.
  unfold _parse_property_data. simpl.
  unfold parse_record at 2, mapped_name. simpl. rewrite Hu1, Hp1. simpl.
  rewrite lookup_empty, Hx1. simpl.
  unfold parse_record, mapped_name. simpl. rewrite Hu2, Hp2. simpl.
  rewrite lookup_insert_eq. by rewrite lookup_insert_ne, lookup_empty.
Qed.

(** X6.  With a name the property map leaves as it is, a second record
    of a band that is not the first band does not update the field of
    that band: the aggregator writes its value under the plain name,
    the field of the first band, and the suffixed field keeps the value
    of the earlier record. *)
Theorem parse_property_data_repeated_band (p u1 u2 u3 : string) (b1 b2 : Z)
    (v1 v2 v3 : option Q) (un1 un2 un3 : option string) (x1 x2 x3 : value) :
  pm !! p = None ->
  b1 <> b2 ->
  resolve_unit pint u1 = Ok un1 -> scaled v1 un1 = Ok x1 ->
  resolve_unit pint u2 = Ok un2 -> scaled v2 un2 = Ok x2 ->
  resolve_unit pint u3 = Ok un3 -> scaled v3 un3 = Ok x3 ->
  _parse_property_data pint pm
    [PropertyRecord.mk b1 p v1 u1; PropertyRecord.mk b2 p v2 u2;
     PropertyRecord.mk b2 p v3 u3]
  = Ok (<[p := x3]> (<[p +:+ "_" +:+ pretty b2 := x2]> {[ p := x1 ]}), {[ p ]}).
Proof.
  intros Hp Hb Hu1 Hx1 Hu2 Hx2 Hu3 Hx3.
  unfold _parse_property_data. simpl.
  unfold parse_record at 3, mapped_name. simpl. rewrite Hu1, Hp. simpl.
  rewrite lookup_empty, Hx1. simpl.
  unfold parse_record at 2, mapped_name. simpl. rewrite Hu2, Hp. simpl.
  rewrite !lookup_insert_eq. simpl.
  rewrite decide_True by (apply not_elem_of_singleton; congruence).
  rewrite Hx2. simpl.
  unfold parse_record, mapped_name. simpl. rewrite Hu3, Hp. simpl.
  rewrite !lookup_insert_eq. simpl.
  rewrite decide_False.
  2: { intros Hn. apply Hn, elem_of_union. right. by apply elem_of_singleton. }
  rewrite Hx3. simpl. do 2 f_equal. apply union_empty_l_L.
Qed.

End AggregatorEdges.

Lemma parse_property_data_raises_key_error_witness :
  _parse_property_data Sample.pint
    {[ "Rating" := "Max Capacity"; "Max Capacity" := "base_power" ]}
    [PropertyRecord.mk 1 "Rating" (Some 80%Q) "-";
     PropertyRecord.mk 1 "Max Capacity" (Some 100%Q) "-"]
  = Raise (KeyError "base_power").
Proof.
  by apply (parse_property_data_raises_key_error Sample.pint _ "Rating" "Max Capacity"
              "base_power" "-" "-" 1 1 (Some 80%Q) (Some 100%Q) None None (VFloat 80)).
Defined.

Lemma parse_property_data_repeated_band_witness :
  _parse_property_data Sample.pint ∅
    [PropertyRecord.mk 1 "Heat Rate" (Some 9%Q) "-";
     PropertyRecord.mk 2 "Heat Rate" (Some 10%Q) "-";
     PropertyRecord.mk 2 "Heat Rate" (Some 11%Q) "-"]
  = Ok (<["Heat Rate" := VFloat 11]>
          (<["Heat Rate_2" := VFloat 10]> {[ "Heat Rate" := VFloat 9 ]}),
        {[ "Heat Rate" ]}).
Proof.
  by apply (parse_property_data_repeated_band Sample.pint ∅ "Heat Rate" "-" "-" "-" 1 2
              (Some 9%Q) (Some 10%Q) (Some 11%Q) None None None).
Defined.

(** ** The fields and the extension bag of a component *)

Lemma clamp_available_lookup_ne (pint : Pint) (vf vf' : gmap string value) (k : string) :
  clamp_available pint vf = Ok vf' -> k <> "available" -> vf' !! k = vf !! k.
Proof.
  unfold clamp_available. intros H Hk.
  destruct (vf !! "available") as [available|]; [| by injection H as <-].
  destruct (truthy pint available); [| by injection H as <-].
  destruct (gt_1 pint available) as [[]|]; simpl in H; [| by injection H as <- | done].
  injection H as <-. by rewrite lookup_insert_ne.
Qed.

Lemma clamp_available_lookup (pint : Pint) (vf vf' : gmap string value) (v : value) :
  clamp_available pint vf = Ok vf' -> vf' !! "available" = Some v ->
  truthy pint v = true -> gt_1 pint v = Ok false.
Proof.
  unfold clamp_available. intros H Hv Ht.
  destruct (vf !! "available") as [available|] eqn:E.
  - destruct (truthy pint available) eqn:Ha.
    + destruct (gt_1 pint available) as [[]|] eqn:Hg; simpl in H; [| | done].
      * injection H as <-. rewrite lookup_insert_eq in Hv. by injection Hv as <-.
      * injection H as <-. rewrite E in Hv. by injection Hv as <-.
    + injection H as <-. rewrite E in Hv. injection Hv as <-. congruence.
  - injection H as <-. congruence.
Qed.

(** X7.  Every attribute of the bag that is not [None] reaches the
    component: under its own name when the class has a field of that
    name, in the extension bag ([ext]) otherwise; an attribute that is
    [None] is dropped.  (The field [available] is the one the builder may
    rewrite, and [ext] is the key of the extension bag.) *)
Theorem component_kwargs_keeps_attributes (pint : Pint) (cls : ModelClass)
    (mapped : gmap string value) (kwargs : gmap string field) (k : string) (v : value) :
  component_kwargs pint cls mapped = Ok kwargs ->
  mapped !! k = Some v ->
  k <> "ext" ->
  (is_None v = false -> k ∈ field_names cls -> k <> "available" ->
     kwargs !! k = Some (FValue v))
  /\ (is_None v = false -> k ∉ field_names cls ->
        kwargs !! k = None
        /\ exists ext_data, kwargs !! "ext" = Some (FExt ext_data)
                            /\ ext_data !! k = Some v)
  /\ (is_None v = true ->
        kwargs !! k = None
        /\ forall ext_data, kwargs !! "ext" = Some (FExt ext_data) -> ext_data !! k = None).
Proof.
  unfold component_kwargs. intros H Hk Hext.
  destruct (clamp_available pint (valid_fields_of (field_names cls) mapped))
    as [vf|] eqn:Hclamp; [simpl in H | done].
  injection H as <-.
  assert (forall ext_data,
            with_ext vf (ext_data_of (field_names cls) mapped) !! "ext"
            = Some (FExt ext_data) ->
            ext_data = ext_data_of (field_names cls) mapped) as Hbag.
  { intros ext_data. unfold with_ext. case_decide as He.
    - rewrite lookup_fmap. destruct (vf !! "ext"); simpl; congruence.
    - rewrite lookup_insert_eq. congruence. }
  split; [| split].
  - intros Hv Hf Hav. rewrite with_ext_lookup by done.
    rewrite (clamp_available_lookup_ne _ _ _ _ Hclamp) by done.
    by rewrite (valid_fields_of_lookup _ _ _ v).
  - intros Hv Hf.
    assert (ext_data_of (field_names cls) mapped !! k = Some v) as Hin.
    { unfold ext_data_of. apply map_lookup_filter_Some. by split. }
    split.
    + rewrite with_ext_lookup by done.
      destruct (decide (k = "available")) as [-> | Hav].
      * destruct (vf !! "available") as [a|] eqn:Ha; [| done].
        exfalso. unfold clamp_available in Hclamp.
        assert (valid_fields_of (field_names cls) mapped !! "available" = None) as Hno.
        { unfold valid_fields_of. apply map_lookup_filter_None. right.
          intros x Hx [Hin' _]. simpl in Hin'. done. }
        rewrite Hno in Hclamp. injection Hclamp as <-. congruence.
      * rewrite (clamp_available_lookup_ne _ _ _ _ Hclamp) by done.
        assert (valid_fields_of (field_names cls) mapped !! k = None) as ->; [| done].
        unfold valid_fields_of. apply map_lookup_filter_None. right.
        intros x Hx [Hin' _]. simpl in Hin'. done.
    + exists (ext_data_of (field_names cls) mapped). split; [| done].
      unfold with_ext. rewrite decide_False.
      * apply lookup_insert_eq.
      * intros He. rewrite He in Hin. by rewrite lookup_empty in Hin.
  - intros Hv.
    assert (valid_fields_of (field_names cls) mapped !! k = None) as Hno.
    { unfold valid_fields_of. apply map_lookup_filter_None. right.
      intros x Hx [_ Hx']. simpl in Hx'. congruence. }
    split.
    + rewrite with_ext_lookup by done.
      destruct (decide (k = "available")) as [-> | Hav].
      * unfold clamp_available in Hclamp. rewrite Hno in Hclamp.
        injection Hclamp as <-. by rewrite Hno.
      * rewrite (clamp_available_lookup_ne _ _ _ _ Hclamp) by done. by rewrite Hno.
    + intros ext_data Hb. rewrite (Hbag ext_data Hb).
      unfold ext_data_of. apply map_lookup_filter_None. right.
      intros x Hx [_ Hx']. simpl in Hx'. congruence.
Qed.

(** X8.  Whatever the attribute bag, a component never gets a value
    greater than 1 for [available]: when the builder returns keyword
    arguments with a truthy [available], the comparison of that value
    with 1 is false. *)
Theorem component_kwargs_available_at_most_1 (pint : Pint) (cls : ModelClass)
    (mapped : gmap string value) (kwargs : gmap string field) (v : value) :
  component_kwargs pint cls mapped = Ok kwargs ->
  kwargs !! "available" = Some (FValue v) ->
  truthy pint v = true ->
  gt_1 pint v = Ok false.
Proof.
  unfold component_kwargs. intros H Hv Ht.
  destruct (clamp_available pint (valid_fields_of (field_names cls) mapped))
    as [vf|] eqn:Hclamp; [simpl in H | done].
  injection H as <-. rewrite with_ext_lookup in Hv by done.
  destruct (vf !! "available") as [a|] eqn:Ha; [| done].
  injection Hv as ->. exact (clamp_available_lookup pint _ vf v Hclamp Ha Ht).
Qed.

Ltac not_in_list :=
  let H := fresh in
  intros H; repeat (apply elem_of_cons in H as [H | H]; [discriminate H |]);
  by apply elem_of_nil in H.

Lemma component_kwargs_keeps_attributes_witness :
  exists kwargs,
    component_kwargs Sample.pint Sample.ThermalStandard Sample.bag = Ok kwargs
    /\ kwargs !! "name" = Some (FValue (VStr "gen1"))
    /\ (exists ext_data, kwargs !! "ext" = Some (FExt ext_data)
                         /\ ext_data !! "Heat Rate" = Some (VFloat 9))
    /\ kwargs !! "fuel" = None.
Proof.
  eexists. split; [reflexivity |]. split; [| split].
  - eapply (component_kwargs_keeps_attributes Sample.pint Sample.ThermalStandard
              Sample.bag _ "name" (VStr "gen1")); try reflexivity; try done.
    apply list_elem_of_here.
  - eapply (component_kwargs_keeps_attributes Sample.pint Sample.ThermalStandard
              Sample.bag _ "Heat Rate" (VFloat 9)); try reflexivity; try done.
    unfold field_names. simpl. not_in_list.
  - eapply (component_kwargs_keeps_attributes Sample.pint Sample.ThermalStandard
              Sample.bag _ "fuel" VNone); try reflexivity; done.
Defined.

Lemma component_kwargs_available_at_most_1_witness :
  exists kwargs,
    component_kwargs Sample.pint Sample.ThermalStandard Sample.bag = Ok kwargs
    /\ kwargs !! "available" = Some (FValue (VInt 1))
    /\ gt_1 Sample.pint (VInt 1) = Ok false.
Proof.
  eexists. split; [reflexivity |]. split; [reflexivity |].
  eapply (component_kwargs_available_at_most_1 Sample.pint Sample.ThermalStandard
            Sample.bag); reflexivity.
Defined.

(** ** The loops of the generators and of the batteries *)

Lemma extends_with_refl (b : Build) : extends_with b b [].
Proof.
  split; [by rewrite app_nil_r |]. split; [done |]. exists []. by rewrite app_nil_r.
Qed.

Lemma extends_with_warn (b : Build) (w : warning) : extends_with b (warn w b) [].
Proof.
  split; [by rewrite app_nil_r |]. split; [done |]. by exists [w].
Qed.

Lemma extends_with_add (b : Build) (c : Component) :
  extends_with b (add_component c b) [c].
Proof. split; [done |]. split; [done |]. exists []. by rewrite app_nil_r. Qed.

Lemma extends_with_trans (b1 b2 b3 : Build) (new1 new2 : list Component) :
  extends_with b1 b2 new1 -> extends_with b2 b3 new2 ->
  extends_with b1 b3 (new1 ++ new2).
Proof.
  intros (Hc1 & Ht1 & ws1 & Hl1) (Hc2 & Ht2 & ws2 & Hl2).
  split; [by rewrite Hc2, Hc1, app_assoc |]. split; [congruence |].
  exists (ws1 ++ ws2). by rewrite Hl2, Hl1, app_assoc.
Qed.

(** A loop whose step adds at most one component, one with the property
    [P], adds at most one component for each group, all with [P]. *)
Lemma loop_extends {A : Type} (P : Component -> Prop) (step : Build -> A -> result Build)
    (groups : list A) :
  (forall b g b', step b g = Ok b' ->
     extends_with b b' [] \/ exists c, extends_with b b' [c] /\ P c) ->
  forall b b', foldM step b groups = Ok b' ->
    exists new, extends_with b b' new
                /\ Forall P new
                /\ (length new <= length groups)%nat.
Proof.
  intros Hstep. induction groups as [|g groups IH]; intros b b' H; simpl in H.
  - injection H as <-. exists []. split; [apply extends_with_refl |]. by split.
  - destruct (step b g) as [b1|e] eqn:E; [simpl in H | done].
    destruct (IH b1 b' H) as (new & Hext & Hall & Hlen).
    destruct (Hstep b g b1 E) as [Hnone | (c & Hone & Hc)].
    + exists new. split; [apply (extends_with_trans b b1 b' [] new); done |].
      split; [done | simpl; lia].
    + exists (c :: new). split; [apply (extends_with_trans b b1 b' [c] new); done |].
      split; [by constructor | simpl; lia].
Qed.

Section Loops.

Variable pint : Pint.
Variable config : Config.

Lemma construct_generator_step (fuel_map : gmap string string) (b b' : Build)
    (group : string * list Row) :
  construct_generator pint config fuel_map b group = Ok b' ->
  extends_with b b' []
  \/ exists c, extends_with b b' [c] /\ complete_generator config c.
Proof.
  unfold construct_generator. intros H.
  destruct (R2X_MODELS config (generator_model_name config fuel_map group.1))
    as [cls|] eqn:Hcls.
  2: { injection H as <-. left. apply extends_with_warn. }
  destruct (mapM to_dict group.2) as [records|]; [simpl in H | done].
  destruct (_parse_property_data pint (property_map config) records) as [parsed|];
    [simpl in H | done].
  destruct (generator_records config group.1 (fuel_map !! group.1) parsed.1)
    as [mapped|]; [simpl in H | done].
  destruct (component_kwargs pint cls mapped) as [kwargs|]; [simpl in H | done].
  injection H as <-. unfold register_generator.
  destruct (has_all (required_fields cls) kwargs) eqn:Hall.
  - right. eexists. split; [apply extends_with_add |].
    eexists _, cls. split; [exact Hcls |]. by split.
  - left. apply extends_with_warn.
Qed.

Lemma construct_battery_step (b b' : Build) (group : string * list Row) :
  construct_battery pint config b group = Ok b' ->
  extends_with b b' []
  \/ exists c, extends_with b b' [c] /\ complete_component (GenericBattery config) c.
Proof.
  unfold construct_battery. intros H.
  destruct (mapM to_dict group.2) as [records|]; [simpl in H | done].
  destruct (_parse_property_data pint (property_map config) records) as [parsed|];
    [simpl in H | done].
  destruct (component_kwargs pint (GenericBattery config)
              (battery_records group.1 parsed.1)) as [kwargs|]; [simpl in H | done].
  unfold register_battery in H.
  destruct (has_all (required_fields (GenericBattery config)) kwargs) eqn:Hall.
  2: { injection H as <-. left. apply extends_with_warn. }
  destruct (battery_records group.1 parsed.1 !! "storage_capacity") as [sc|]; [| done].
  destruct (eq_0 pint sc) as [[]|]; simpl in H; [| | done]; injection H as <-.
  - left. apply extends_with_warn.
  - right. eexists. split; [apply extends_with_add |]. by split.
Qed.

(** X9.  When the loop over the generators returns, the system is the
    one it started from with components added at the end, at most one for
    each generator name: no component is removed or changed and no time
    series is touched; each added component is of a class of [r2x.model]
    and has all the required fields of that class. *)
Theorem construct_generators_adds_complete_components
    (generator_fuel : list (string * string)) (system_generators : list Row)
    (b b' : Build) :
  construct_generators pint config generator_fuel system_generators b = Ok b' ->
  exists new,
    extends_with b b' new
    /\ Forall (complete_generator config) new
    /\ (length new <= length (group_by_name system_generators))%nat.
Proof.
  unfold construct_generators. apply loop_extends.
  intros b0 g b1. apply construct_generator_step.
Qed.

(** X10.  The same for the loop over the batteries: each added component
    is a [GenericBattery] with all its required fields. *)
Theorem construct_batteries_adds_complete_components
    (system_batteries : list Row) (b b' : Build) :
  construct_batteries pint config system_batteries b = Ok b' ->
  exists new,
    extends_with b b' new
    /\ Forall (complete_component (GenericBattery config)) new
    /\ (length new <= length (group_by_name system_batteries))%nat.
Proof.
  unfold construct_batteries. apply loop_extends.
  intros b0 g b1. apply construct_battery_step.
Qed.

End Loops.

Lemma construct_generators_adds_complete_components_witness :
  exists b',
    construct_generators Sample.pint Sample.config [("gen1", "Gas")]
      (Sample.generator 3).2 Sample.one_bus = Ok b'
    /\ exists new,
         extends_with Sample.one_bus b' new
         /\ Forall (complete_generator Sample.config) new
         /\ (length new <= length (group_by_name (Sample.generator 3).2))%nat.
Proof.
  eexists. split; [vm_compute; reflexivity |].
  apply (construct_generators_adds_complete_components Sample.pint Sample.config
           [("gen1", "Gas")] (Sample.generator 3).2 Sample.one_bus).
  vm_compute. reflexivity.
Defined.

Lemma construct_batteries_adds_complete_components_witness :
  exists b',
    construct_batteries Sample.pint Sample.config (Sample.battery 1 200).2
      Sample.one_bus = Ok b'
    /\ exists new,
         extends_with Sample.one_bus b' new
         /\ Forall (complete_component (GenericBattery Sample.config)) new
         /\ (length new <= length (group_by_name (Sample.battery 1 200).2))%nat.
Proof.
  eexists. split; [vm_compute; reflexivity |].
  apply (construct_batteries_adds_complete_components Sample.pint Sample.config
           (Sample.battery 1 200).2 Sample.one_bus).
  vm_compute. reflexivity.
Defined.

(** ** Profile files *)

(** X11.  The CSV file handler reads the first row of the property only:
    on more than one row it does what it does on the first row alone,
    with one more warning, logged first; on the first row alone this
    warning is not logged. *)
Theorem csv_file_handler_reads_first_row (fs : FileSystem) (y : Z) (pn : string)
    (first : Row) (rest : list Row) :
  rest <> [] ->
  _csv_file_handler fs y pn (first :: rest)
  = (handled ← _csv_file_handler fs y pn [first];
     Ok (handled.1, MoreThanOneRow pn :: handled.2))
  /\ (forall ts ws, _csv_file_handler fs y pn [first] = Ok (ts, ws) ->
        MoreThanOneRow pn ∉ ws).
Proof.
  intros Hrest. split.
  - unfold _csv_file_handler.
    rewrite (bool_decide_eq_false_2 (length (first :: rest) = 1%nat))
      by (destruct rest; [done | simpl; lia]).
    rewrite (bool_decide_eq_true_2 (length [first] = 1%nat)) by done.
    destruct (text first) as [fpath_text|]; [| done].
    destruct (fs (relative_path_of fpath_text)) as [|data_file|e]; [done | | done].
    by destruct (series_of_data_file y pn (relative_path_of fpath_text) data_file)
      as [[ts ws]|e].
  - intros ts ws. unfold _csv_file_handler.
    rewrite (bool_decide_eq_true_2 (length [first] = 1%nat)) by done.
    destruct (text first) as [fpath_text|]; [| done].
    destruct (fs (relative_path_of fpath_text)) as [|data_file|e]; [| | done].
    + intros [= <- <-]. simpl. not_in_list.
    + unfold series_of_data_file.
      repeat case_match; simpl; try done; intros [= <- <-]; simpl; not_in_list.
Qed.

Lemma csv_file_handler_reads_first_row_witness :
  _csv_file_handler Sample.one_file 2012 "Load" [Sample.file_row; Sample.other_file_row]
  = (handled ← _csv_file_handler Sample.one_file 2012 "Load" [Sample.file_row];
     Ok (handled.1, MoreThanOneRow "Load" :: handled.2)).
Proof.
  apply (csv_file_handler_reads_first_row Sample.one_file 2012 "Load" Sample.file_row
           [Sample.other_file_row]).
  done.
Defined.

(** The rows of the melted file: one for each value column and each row
    of the weather year, column by column. *)
Lemma melted_length {A : Type} (columns : list string) (in_year : list (list Cell))
    (f : string -> list Cell -> A) :
  length (column ← columns; row ← in_year; [f column row])
  = (length columns * length in_year)%nat.
Proof.
  apply length_bind_const. intros column.
  rewrite (length_bind_const _ _ 1); [lia | done].
Qed.

Lemma melted_first_row {A : Type} (columns : list string) (in_year : list (list Cell))
    (f : string -> list Cell -> A) (x : A) (l : list A) :
  (column ← columns; row ← in_year; [f column row]) = x :: l ->
  exists column row, row ∈ in_year /\ x = f column row.
Proof.
  intros H.
  assert (x ∈ (column ← columns; row ← in_year; [f column row])) as Hin.
  { rewrite H. apply list_elem_of_here. }
  apply list_elem_of_bind in Hin as (column & Hin & _).
  apply list_elem_of_bind in Hin as (row & Hin & Hrow).
  apply list_elem_of_singleton in Hin. by exists column, row.
Qed.

Lemma cell_equals_CInt (c : Cell) (n m : Z) :
  cell_equals c n = true -> c = CInt m -> m = n.
Proof. intros H ->. simpl in H. by apply bool_decide_eq_true in H. Qed.

(** X12.  A series the handler makes of a profile file holds one value
    for each value column and each row of the weather year, and at least
    one; it is hourly, carries the name of the property, and starts on a
    valid date of the weather year; no warning comes with it. *)
Theorem series_of_data_file_shape (y : Z) (pn : string) (path : relative_path)
    (data_file : DataFile) (ts : SingleTimeSeries) (ws : list warning) :
  series_of_data_file y pn path data_file = Ok (Some ts, ws) ->
  ws = []
  /\ variable_name ts = pn
  /\ resolution_hours ts = 1
  /\ (exists m d, initial_time ts = (y, m, d) /\ valid_date y m d = true)
  /\ length (data ts)
     = (length (value_columns data_file) * length (rows_of_year y data_file))%nat
  /\ data ts <> [].
Proof.
  unfold series_of_data_file.
  fold (rows_of_year y data_file). fold (value_columns data_file).
  destruct (bool_decide (NoDup (lower <$> header data_file))); [| done]. cbn [negb].
  destruct (forallb _ DATETIME_COLUMNS); [| done].
  destruct (_ ≫= _) as [|[[[cy cm] cd] cv] melted] eqn:Hmelted; [done |].
  destruct cy as [yy| |]; try done. destruct cm as [mm| |]; try done.
  destruct cd as [dd| |]; try done.
  destruct (valid_date yy mm dd) eqn:Hvalid; [| done].
  intros [= <- <-]. cbn [variable_name resolution_hours initial_time data].
  pose proof (melted_first_row _ _ _ _ _ Hmelted) as (column & row & Hrow & Hfirst).
  injection Hfirst as Hy _ _ _.
  apply list_elem_of_filter in Hrow as [Heq _].
  pose proof (cell_equals_CInt _ _ _ Heq (eq_sym Hy)) as ->.
  split; [done |]. split; [done |]. split; [done |].
  split; [by exists mm, dd |]. split; [| done].
  change (length ((fun r : Cell * Cell * Cell * Cell => cell_value r.2)
                    <$> (CInt y, CInt mm, CInt dd, cv) :: melted)
          = (length (value_columns data_file) * length (rows_of_year y data_file))%nat).
  rewrite length_fmap, <- Hmelted. apply melted_length.
Qed.

Lemma series_of_data_file_shape_witness :
  exists ts,
    series_of_data_file 2012 "Load" (Path "load.csv") Sample.load_file = Ok (Some ts, [])
    /\ initial_time ts = (2012, 1, 1)
    /\ length (data ts) = 4%nat.
Proof.
  eexists. split; [reflexivity |].
  destruct (series_of_data_file_shape 2012 "Load" (Path "load.csv") Sample.load_file
              _ [] eq_refl) as (_ & _ & _ & _ & Hlen & _).
  split; [reflexivity | exact Hlen].
Defined.

(** X13.  The handler stops on its assertion exactly on a file with the
    date columns (and no column twice) that has no row of the weather
    year, or no column beside the date: such a file is not skipped. *)
Theorem series_of_data_file_assertion (y : Z) (pn : string) (path : relative_path)
    (data_file : DataFile) :
  series_of_data_file y pn path data_file = Raise AssertionError
  <-> NoDup (lower <$> header data_file)
      /\ (forall column, column ∈ DATETIME_COLUMNS -> column ∈ lower <$> header data_file)
      /\ (rows_of_year y data_file = [] \/ value_columns data_file = []).
Proof.
  unfold series_of_data_file.
  fold (rows_of_year y data_file). fold (value_columns data_file).
  destruct (bool_decide (NoDup (lower <$> header data_file))) eqn:Hnodup; cbn [negb].
  2: { apply bool_decide_eq_false in Hnodup. split; [done | by intros [? _]]. }
  apply bool_decide_eq_true in Hnodup.
  destruct (forallb _ DATETIME_COLUMNS) eqn:Hdate.
  2: { split; [done |]. intros (_ & Hall & _).
       assert (forallb (fun column => bool_decide (column ∈ lower <$> header data_file))
                 DATETIME_COLUMNS = true) as Habs; [| congruence].
       apply forallb_forall. intros c Hc. apply bool_decide_eq_true, Hall.
       by apply list_elem_of_In. }
  assert (forall column, column ∈ DATETIME_COLUMNS
                         -> column ∈ lower <$> header data_file) as Hall.
  { intros c Hc. rewrite forallb_forall in Hdate.
    apply list_elem_of_In, Hdate in Hc. by apply bool_decide_eq_true in Hc. }
  destruct (_ ≫= _) as [|[[[cy cm] cd] cv] melted] eqn:Hmelted.
  - split; [| done]. intros _. split; [done |]. split; [done |].
    apply (f_equal length) in Hmelted. rewrite melted_length in Hmelted. simpl in Hmelted.
    destruct (value_columns data_file); [by right |].
    destruct (rows_of_year y data_file); [by left | simpl in Hmelted; lia].
  - split.
    + repeat case_match; done.
    + intros (_ & _ & Hempty). exfalso.
      apply (f_equal length) in Hmelted. rewrite melted_length in Hmelted.
      destruct Hempty as [H | H]; rewrite H in Hmelted; simpl in Hmelted; lia.
Qed.

(** ** Time slices that are not the twelve months *)

Lemma py_int_raises (s : string) (e : exn) : py_int s = Raise e -> e = ValueError.
Proof.
  unfold py_int. cbv zeta.
  match goal with |- from_option _ _ ?signed = _ -> _ => destruct signed end;
    simpl; congruence.
Qed.

Section SliceLoop.

Variable months : list Z.

(** When the loop of the handler returns, the month codes were all read,
    and the series is the fold of the assignments. *)
Lemma slice_loop_returns (records : list Row) (series s : list (option Q)) :
  foldM
    (fun series record =>
       text ← from_option Ok (Raise AttributeError) (text record);
       month ← py_int (strip_M text);
       Ok (assign_month months month (property_value record) series))
    series records = Ok s ->
  s = foldl (assign_record months) series records.
Proof.
  revert series. induction records as [|r records IH]; intros series H.
  - by injection H as <-.
  - rewrite foldM_cons in H.
    destruct (text r) as [t|] eqn:Ht; [| done]. cbn [from_option mbind result_bind] in H.
    destruct (py_int (strip_M t)) as [m|e] eqn:Hm; [| done].
    cbn [mbind result_bind] in H. apply IH in H. rewrite H. simpl. f_equal.
    unfold assign_record, month_tag, text_tag. by rewrite Ht, Hm.
Qed.

(** A month code that does not read stops the loop with [ValueError]. *)
Lemma slice_loop_raises (records : list Row) (series : list (option Q)) :
  (forall r, r ∈ records -> text r <> None) ->
  (exists r t, r ∈ records /\ text r = Some t
               /\ forall m, py_int (strip_M t) <> Ok m) ->
  foldM
    (fun series record =>
       text ← from_option Ok (Raise AttributeError) (text record);
       month ← py_int (strip_M text);
       Ok (assign_month months month (property_value record) series))
    series records = Raise ValueError.
Proof.
  revert series. induction records as [|r records IH]; intros series Htext Hbad.
  - destruct Hbad as (r & t & Hr & _). by apply elem_of_nil in Hr.
  - rewrite foldM_cons.
    destruct (text r) as [t|] eqn:Ht.
    2: { exfalso. apply (Htext r); [apply list_elem_of_here | done]. }
    cbn [from_option mbind result_bind].
    destruct (py_int (strip_M t)) as [m|e] eqn:Hm; cbn [mbind result_bind].
    + apply IH.
      * intros r' Hr'. apply Htext. by apply list_elem_of_further.
      * destruct Hbad as (r' & t' & Hr' & Ht' & Hno).
        apply elem_of_cons in Hr' as [-> | Hr'].
        -- rewrite Ht in Ht'. injection Ht' as <-. by destruct (Hno m).
        -- by exists r', t'.
    + by rewrite (py_int_raises _ _ Hm).
Qed.

(** The records of other months leave an hour as it is. *)
Lemma slice_fold_untouched (records : list Row) (series : list (option Q)) (i : nat)
    (m : Z) (v : option Q) :
  months !! i = Some m -> series !! i = Some v ->
  (forall r, r ∈ records -> month_tag r <> m) ->
  foldl (assign_record months) series records !! i = Some v.
Proof.
  intros Hm. revert series.
  induction records as [|r records IH]; intros series Hv Hother; [done |].
  simpl. apply IH.
  - rewrite (assign_record_lookup months series r i m v Hm Hv).
    rewrite decide_False; [done |].
    intros Heq. apply (Hother r); [apply list_elem_of_here | done].
  - intros r' Hr'. apply Hother. by apply list_elem_of_further.
Qed.

(** The last record of a month gives its hours their value. *)
Lemma slice_fold_last (before after : list Row) (r : Row) (series : list (option Q))
    (i : nat) (m : Z) :
  length months = length series ->
  months !! i = Some m ->
  month_tag r = m ->
  (forall r', r' ∈ after -> month_tag r' <> m) ->
  foldl (assign_record months) series (before ++ r :: after) !! i
  = Some (property_value r).
Proof.
  intros Hlen Hm Htag Hafter. rewrite foldl_app. simpl.
  assert (is_Some (foldl (assign_record months) series before !! i)) as [v Hv].
  { apply lookup_lt_is_Some. rewrite slice_fold_length by done.
    rewrite <- Hlen. by apply lookup_lt_Some in Hm. }
  apply slice_fold_untouched with (m := m); [done | | done].
  rewrite (assign_record_lookup months _ r i m v Hm Hv).
  by rewrite decide_True.
Qed.

End SliceLoop.

(** X14.  Of twelve records with a text, one whose text without its
    leading and trailing M does not read as a whole number makes the
    time-slice handler raise [ValueError]: such a property is not
    skipped. *)
Theorem time_slice_handler_unreadable_month (y : Z) (pn : string) (records : list Row) :
  1 <= y <= 9999 ->
  length records = 12%nat ->
  (forall r, r ∈ records -> text r <> None) ->
  (exists r t, r ∈ records /\ text r = Some t
               /\ forall m, py_int (strip_M t) <> Ok m) ->
  _time_slice_handler y pn records = Raise ValueError.
Proof.
  intros Hy Hlen Htext Hbad. unfold _time_slice_handler.
  rewrite (bool_decide_eq_true_2 (1 <= y <= 9999)) by done.
  rewrite (bool_decide_eq_true_2 _ Hlen). cbn [negb].
  by rewrite slice_loop_raises.
Qed.

Lemma time_slice_handler_unreadable_month_witness :
  text Sample.hour_row = Some "M1,H3"
  /\ _time_slice_handler 2012 "Load" Sample.with_hour_slices = Raise ValueError.
Proof.
  split; [reflexivity |].
  apply (time_slice_handler_unreadable_month 2012 "Load" Sample.with_hour_slices).
  - lia.
  - reflexivity.
  - intros r Hr. vm_compute in Hr.
    repeat (apply elem_of_cons in Hr as [-> | Hr]; [done |]).
    by apply elem_of_nil in Hr.
  - exists Sample.hour_row, "M1,H3". split; [apply list_elem_of_here |].
    split; [reflexivity |]. intros m. by vm_compute.
Defined.

(** X15.  In a series of the time-slice handler, the hours of a month
    that no record names hold 0, and the hours of a month that several
    records name hold the value of the last of them. *)
Theorem time_slice_handler_last_record_wins (y : Z) (pn : string) (records : list Row)
    (ts : SingleTimeSeries) (ws : list warning) (i : nat) (dt : Z * Z * Z * Z) :
  _time_slice_handler y pn records = Ok (Some ts, ws) ->
  date_time_array y !! i = Some dt ->
  ((forall r, r ∈ records -> month_tag r <> month_of dt) ->
     data ts !! i = Some (Some 0%Q))
  /\ (forall before r after,
        records = before ++ r :: after ->
        month_tag r = month_of dt ->
        (forall r', r' ∈ after -> month_tag r' <> month_of dt) ->
        data ts !! i = Some (property_value r)).
Proof.
  unfold _time_slice_handler. intros H Hdt.
  destruct (bool_decide (1 <= y <= 9999)); [| done].
  destruct (bool_decide (length records = 12%nat)); [| done].
  cbn [negb] in H.
  set (months := (fun dt => months_since_epoch dt `mod` 12 + 1) <$> date_time_array y) in *.
  set (zeros := replicate (length (date_time_array y)) (Some 0%Q)) in *.
  destruct (foldM _ zeros records) as [series|e] eqn:Hloop; [| done].
  apply slice_loop_returns in Hloop as ->.
  injection H as <- _. cbn [data].
  assert (months !! i = Some (month_of dt)) as Hm.
  { unfold months. rewrite list_lookup_fmap, Hdt. simpl. f_equal.
    by apply (date_time_array_month y), list_elem_of_lookup_2 with i. }
  assert (length months = length zeros) as Hlen.
  { unfold months, zeros. by rewrite length_fmap, length_replicate. }
  split.
  - intros Hnone. apply slice_fold_untouched with (m := month_of dt); [done | | done].
    unfold zeros. apply lookup_replicate_2. by apply lookup_lt_Some in Hdt.
  - intros before r after -> Htag Hafter. by apply slice_fold_last with (m := month_of dt).
Qed.

Lemma time_slice_handler_last_record_wins_witness :
  exists ts,
    _time_slice_handler 2012 "Load" Sample.january_twice = Ok (Some ts, [])
    /\ property_value Sample.january_row = Some 7%Q
    /\ data ts !! 0%nat = Some (Some 100%Q)
    /\ data ts !! Z.to_nat 8783 = Some (Some 0%Q).
Proof.
  eexists. split; [vm_compute; reflexivity |]. split; [reflexivity |].
  split.
  - refine (proj2 (time_slice_handler_last_record_wins 2012 "Load" Sample.january_twice
                     _ [] 0 (2012, 1, 1, 0) _ _)
              [Sample.january_row] (Sample.month_row 1) (Sample.month_row <$> seqZ 2 10)
              _ _ _).
    + vm_compute. reflexivity.
    + reflexivity.
    + reflexivity.
    + reflexivity.
    + intros r Hr. vm_compute in Hr.
      repeat (apply elem_of_cons in Hr as [-> | Hr]; [by vm_compute |]).
      by apply elem_of_nil in Hr.
  - refine (proj1 (time_slice_handler_last_record_wins 2012 "Load" Sample.january_twice
                     _ [] (Z.to_nat 8783) (2012, 12, 31, 23) _ _) _).
    + vm_compute. reflexivity.
    + vm_compute. reflexivity.
    + intros r Hr. vm_compute in Hr.
      repeat (apply elem_of_cons in Hr as [-> | Hr]; [by vm_compute |]).
      by apply elem_of_nil in Hr.
Defined.

(** ** Load profiles *)




Lemma warns_build (ws : list warning) (b : Build) :
  foldl (fun b w => warn w b) b ws
  = mkBuild (components b) (time_series b) (build_log b ++ ws).
Proof.
  revert b. induction ws as [|w ws IH]; intros b; simpl.
  - rewrite app_nil_r. by destruct b.
  - rewrite IH. simpl. by rewrite <- app_assoc.
Qed.



Section BusLoop.

Variable ts : SingleTimeSeries.
Variable max_load : option Q.
Variable n : nat.



End BusLoop.

Section LoadProfileOfARegion.

Variable fs : FileSystem.
Variable config : Config.
Variable bus_region_membership : string -> list string.



End LoadProfileOfARegion.



(** ** The load profiles of the system *)

Lemma loads_added_refl (b : Build) : loads_added b b.
Proof.
  exists []. split; [by rewrite app_nil_r |]. split; [done |].
  exists []. by rewrite app_nil_r.
Qed.

Lemma loads_added_trans (b1 b2 b3 : Build) :
  loads_added b1 b2 -> loads_added b2 b3 -> loads_added b1 b3.
Proof.
  intros (new1 & Hc1 & Hall1 & s1 & Ht1 & Hs1) (new2 & Hc2 & Hall2 & s2 & Ht2 & Hs2).
  exists (new1 ++ new2). split; [by rewrite Hc2, Hc1, app_assoc |].
  split; [by apply Forall_app |].
  exists (s1 ++ s2). split; [by rewrite Ht2, Ht1, app_assoc |].
  by rewrite fmap_app, omap_app, Hs1, Hs2.
Qed.

Lemma loads_added_warns (ws : list warning) (b : Build) :
  loads_added b (foldl (fun b w => warn w b) b ws).
Proof.
  rewrite warns_build. exists []. split; [by rewrite app_nil_r |]. split; [done |].
  exists []. by rewrite app_nil_r.
Qed.

Lemma loads_added_load (ts : SingleTimeSeries) (max_load : option Q) (n : nat)
    (bus_name : string) (b : Build) :
  loads_added b
    (add_time_series bus_name ts (add_component (power_load max_load n bus_name) b)).
Proof.
  exists [power_load max_load n bus_name]. split; [done |].
  split; [by constructor |]. by exists [(bus_name, ts)].
Qed.

Section LoadProfilesOfTheSystem.

Variable fs : FileSystem.
Variable config : Config.
Variable bus_region_membership : string -> list string.

Lemma construct_load_profile_loads_added (b b' : Build) (group : string * list Row) :
  construct_load_profile fs config bus_region_membership b group = Ok b' ->
  loads_added b b'.
Proof.
  unfold construct_load_profile. destruct group as [region region_data].
  destruct (_csv_file_handler fs (weather_year config) "max_active_power" region_data)
    as [[[ts|] ws]|e]; cbn [mbind result_bind fst snd]; [| | done].
  - destruct (np_max (data ts)) as [max_load|e]; cbn [mbind result_bind]; [| done].
    intros H. apply loads_added_trans with (foldl (fun b w => warn w b) b ws);
      [apply loads_added_warns |].
    revert H. apply foldM_invariant; [apply loads_added_refl |].
    intros b1 bus_name b2 Hb1 Hstep.
    destruct (get_component "ACBus" bus_name b1) as [bus|e]; [| done].
    cbn [mbind result_bind] in Hstep. injection Hstep as <-.
    apply loads_added_trans with b1; [done |].
    apply (loads_added_load ts max_load (length (bus_region_membership region))).
  - intros [= <-]. apply loads_added_warns.
Qed.

(** X18.  When the load profiles return, the system is the one they
    started from with loads added at the end and one series attached to
    each added load, under its name: no other component is added,
    removed or changed. *)
Theorem load_profiles_add_loads_only (ce : ClassEnum) (st : ParserState)
    (plexos_data : list Row) (b b' : Build) :
  _construct_load_profiles fs config bus_region_membership ce st plexos_data b = Ok b' ->
  loads_added b b'.
Proof.
  unfold _construct_load_profiles.
  destruct (get_model_data st plexos_data (system_regions ce)) as [resolved|e]; [| done].
  cbn [mbind result_bind]. apply foldM_invariant; [apply loads_added_refl |].
  intros b1 group b2 Hb1 Hstep. apply loads_added_trans with b1; [done |].
  by apply construct_load_profile_loads_added in Hstep.
Qed.

(** X19.  Without a text on any row of a region, the load profiles read
    no file and leave the system as it is: the regions get no load. *)
Theorem load_profiles_without_text (ce : ClassEnum) (st : ParserState)
    (scs : list string) (plexos_data : list Row) (b : Build) :
  scenarios st = Some scs -> scs <> [] ->
  (forall r, r ∈ plexos_data -> system_regions ce r = Some true -> text r = None) ->
  _construct_load_profiles fs config bus_region_membership ce st plexos_data b = Ok b.
Proof.
  intros Hst Hscs Hnone. unfold _construct_load_profiles, get_model_data. rewrite Hst.
  assert (forall res, _get_model_data (Some scs) plexos_data (system_regions ce) = Ok res ->
            df_filter (fun r => Kleene.not (is_null (text r))) res = []) as Hempty.
  { intros res Hres.
    destruct (df_filter _ res) as [|r rest] eqn:E; [done |]. exfalso.
    assert (r ∈ df_filter (fun r => Kleene.not (is_null (text r))) res) as Hr.
    { rewrite E. apply list_elem_of_here. }
    apply list_elem_of_filter in Hr as [Htext Hr].
    assert (r ∈ plexos_data /\ system_regions ce r = Some true) as [Hin Hp].
    { destruct (get_model_data_cases scs plexos_data (system_regions ce) Hscs)
        as [[_ Heq] | [_ Heq]]; rewrite Heq in Hres; injection Hres as <-.
      - apply list_elem_of_filter in Hr as [[Hp _] Hin]. done.
      - apply elem_of_app in Hr as [Hr | Hr].
        + apply list_elem_of_filter in Hr as [[Hp _] Hin]. done.
        + apply list_elem_of_filter in Hr as [[Hp _] Hin]. done. }
    by rewrite (Hnone r Hin Hp) in Htext. }
  destruct (get_model_data_returns scs plexos_data (system_regions ce) Hscs) as [res Hres].
  rewrite Hres. cbn [mbind result_bind]. by rewrite (Hempty res Hres).
Qed.

End LoadProfilesOfTheSystem.

Lemma load_profiles_add_loads_only_witness :
  exists b',
    _construct_load_profiles Sample.one_file Sample.config Sample.bus1_everywhere
      Sample.class_enum Sample.with_scenario [Sample.file_row] Sample.one_bus = Ok b'
    /\ loads_added Sample.one_bus b'.
Proof.
  eexists. split; [vm_compute; reflexivity |].
  apply (load_profiles_add_loads_only Sample.one_file Sample.config
           Sample.bus1_everywhere Sample.class_enum Sample.with_scenario
           [Sample.file_row] Sample.one_bus).
  vm_compute. reflexivity.
Defined.

Lemma load_profiles_without_text_witness :
  system_regions Sample.class_enum Sample.plain_region_row = Some true
  /\ _construct_load_profiles Sample.one_file Sample.config Sample.bus1_everywhere
       Sample.class_enum Sample.with_scenario [Sample.plain_region_row] Sample.one_bus
     = Ok Sample.one_bus.
Proof.
  split; [reflexivity |].
  apply (load_profiles_without_text Sample.one_file Sample.config
           Sample.bus1_everywhere Sample.class_enum Sample.with_scenario ["High"]
           [Sample.plain_region_row] Sample.one_bus).
  - reflexivity.
  - done.
  - intros r Hr _. by apply list_elem_of_singleton in Hr as ->.
Defined.

(** ** The property map *)

Lemma dict_of_pairs_last (before after : list (string * string)) (k v : string) :
  k ∉ after.*1 ->
  dict_of_pairs (before ++ (k, v) :: after) !! k = Some v.
Proof.
  intros Hafter. unfold dict_of_pairs.
  rewrite reverse_app, reverse_cons, <- app_assoc, list_to_map_app.
  apply lookup_union_Some_raw. right. split.
  - apply not_elem_of_list_to_map_1. by rewrite fmap_reverse, elem_of_reverse.
  - simpl. apply lookup_insert_eq.
Qed.

Lemma dict_of_pairs_elem_of (rows : list (string * string)) (k v : string) :
  dict_of_pairs rows !! k = Some v -> (k, v) ∈ rows.
Proof.
  unfold dict_of_pairs. intros H.
  apply (elem_of_list_to_map_2 (M := gmap string)) in H.
  by rewrite elem_of_reverse in H.
Qed.

Lemma dict_of_pairs_None (rows : list (string * string)) (k : string) :
  k ∉ rows.*1 -> dict_of_pairs rows !! k = None.
Proof.
  intros H. unfold dict_of_pairs.
  apply not_elem_of_list_to_map_1. by rewrite fmap_reverse, elem_of_reverse.
Qed.

(** X20.  The property map of the parser is the default map turned
    around: a source name is renamed to a target name only if the default
    map gives that target name this source name; of several target names
    with one source name the last one is taken, the others are lost; and
    a source name the default map does not mention is kept as it is. *)
Theorem property_map_is_inverted (plexos_property_map : list (string * string))
    (source : string) :
  (forall target, invert_property_map plexos_property_map !! source = Some target ->
     (target, source) ∈ plexos_property_map)
  /\ (forall before target after,
        plexos_property_map = before ++ (target, source) :: after ->
        source ∉ after.*2 ->
        mapped_name (invert_property_map plexos_property_map) source = target)
  /\ (source ∉ plexos_property_map.*2 ->
        mapped_name (invert_property_map plexos_property_map) source = source).
Proof.
  unfold invert_property_map, mapped_name. split; [| split].
  - intros target H. apply dict_of_pairs_elem_of in H.
    apply list_elem_of_fmap in H as ([k v] & [= -> ->] & Hin). done.
  - intros before target after -> Hafter.
    rewrite fmap_app, fmap_cons. cbn [fst snd].
    rewrite dict_of_pairs_last; [done |].
    by rewrite <- list_fmap_compose.
  - intros Hno. rewrite dict_of_pairs_None; [done |].
    by rewrite <- list_fmap_compose.
Qed.

Lemma property_map_is_inverted_witness :
  mapped_name (invert_property_map Sample.plexos_property_map) "Max Capacity" = "rating"
  /\ mapped_name (invert_property_map Sample.plexos_property_map) "Heat Rate"
     = "Heat Rate".
Proof.
  destruct (property_map_is_inverted Sample.plexos_property_map "Max Capacity")
    as (_ & Hlast & _).
  destruct (property_map_is_inverted Sample.plexos_property_map "Heat Rate")
    as (_ & _ & Hkept).
  split.
  - apply (Hlast [("base_power", "Max Capacity")] "rating" [("available", "Units")]).
    + reflexivity.
    + simpl. not_in_list.
  - apply Hkept. simpl. not_in_list.
Defined.

(** ** The buses of the generators and of the batteries *)

Lemma get_component_cases (n : string) (b : Build) :
  (stored_bus b n /\ exists c, get_component "ACBus" n b = Ok c)
  \/ (~ stored_bus b n /\ get_component "ACBus" n b = Raise (ISNotStored n)).
Proof.
  unfold get_component.
  destruct (list_find _ (components b)) as [[i c]|] eqn:E.
  - left. split; [| by eexists].
    apply list_find_Some in E as (Hi & [Hclass Hname] & _).
    exists c. split; [by apply list_elem_of_lookup_2 with i | done].
  - right. split; [| done].
    intros (c & Hin & Hclass & Hname). rewrite list_find_None in E.
    by apply (proj1 (Forall_forall _ _) E c).
Qed.

Lemma same_but_bus_refl (c : Component) : same_but_bus c c.
Proof. by split. Qed.

Lemma same_but_bus_trans (c1 c2 c3 : Component) :
  same_but_bus c1 c2 -> same_but_bus c2 c3 -> same_but_bus c1 c3.
Proof.
  intros [Hc1 Hf1] [Hc2 Hf2]. split; [congruence |].
  intros k Hk. by rewrite Hf2, Hf1.
Qed.

Lemma same_but_bus_set_bus (n : string) (c : Component) : same_but_bus c (set_bus n c).
Proof.
  split; [done |]. intros k Hk. simpl. by rewrite lookup_insert_ne.
Qed.

Lemma same_but_bus_name (c c' : Component) :
  same_but_bus c c' -> component_name c' = component_name c.
Proof. intros [_ H]. unfold component_name. by rewrite H. Qed.

Lemma bus_update_refl (b : Build) : bus_update b b.
Proof.
  split; [done |]. split; [done |].
  apply Forall_Forall2_diag, Forall_forall. intros c _. apply same_but_bus_refl.
Qed.

Lemma bus_update_trans (b1 b2 b3 : Build) :
  bus_update b1 b2 -> bus_update b2 b3 -> bus_update b1 b3.
Proof.
  intros (Ht1 & Hl1 & Hc1) (Ht2 & Hl2 & Hc2).
  split; [congruence |]. split; [congruence |].
  revert Hc1 Hc2. generalize (components b1) (components b2) (components b3).
  intros l1 l2 l3 H12. revert l3.
  induction H12 as [|c1 c2 l1 l2 Hc H12 IH]; intros l3 H23.
  - by inversion H23.
  - inversion H23 as [|? c3 ? l3' Hc' H23']; subst.
    constructor; [by apply same_but_bus_trans with c2 | by apply IH].
Qed.

Lemma bus_update_set_bus (n : string) (i : nat) (b : Build) :
  bus_update b
    (mkBuild (alter (set_bus n) i (components b)) (time_series b) (build_log b)).
Proof.
  split; [done |]. split; [done |]. simpl.
  apply Forall2_alter_r.
  - apply Forall_Forall2_diag, Forall_forall. intros c _. apply same_but_bus_refl.
  - intros c c' _ _ Hc. apply same_but_bus_trans with c'; [done |].
    apply same_but_bus_set_bus.
Qed.

(** Setting buses neither stores a bus nor removes one. *)
Lemma bus_update_stored (b b' : Build) (n : string) :
  bus_update b b' -> stored_bus b' n <-> stored_bus b n.
Proof.
  intros (_ & _ & Hc). split.
  - intros (c' & Hin & Hclass & Hname).
    apply list_elem_of_lookup in Hin as [i Hi].
    destruct (Forall2_lookup_r _ _ _ _ _ Hc Hi) as (c & Hci & Hsame).
    exists c. split; [by apply list_elem_of_lookup_2 with i |].
    rewrite <- (same_but_bus_name c c' Hsame). destruct Hsame as [<- _]. done.
  - intros (c & Hin & Hclass & Hname).
    apply list_elem_of_lookup in Hin as [i Hi].
    destruct (Forall2_lookup_l _ _ _ _ _ Hc Hi) as (c' & Hci & Hsame).
    exists c'. split; [by apply list_elem_of_lookup_2 with i |].
    rewrite (same_but_bus_name c c' Hsame). destruct Hsame as [-> _]. done.
Qed.

Section BusesOfAComponent.

Variable buses : list Membership.
Variable name : option string.
Variable i : nat.

(** The loop over the buses of one component: it runs to its end, having
    set buses of this component only, exactly when each of these buses is
    stored or the component has a fourth membership; otherwise it raises
    [IndexError]. *)
Lemma add_bus_loop (rest : list Membership) (acc : Build * list skipped_membership) :
  (exists acc',
      foldM (add_bus buses name i) acc rest = Ok acc'
      /\ bus_update acc.1 acc'.1
      /\ (forall j, j <> i -> components acc'.1 !! j = components acc.1 !! j)
      /\ (forall bus, bus ∈ rest ->
            stored_bus acc.1 (membership_3 bus) \/ is_Some (buses !! 3%nat)))
  \/ (foldM (add_bus buses name i) acc rest = Raise IndexError
      /\ exists bus, bus ∈ rest /\ ~ stored_bus acc.1 (membership_3 bus)
                     /\ buses !! 3%nat = None).
Proof.
  revert acc. induction rest as [|bus rest IH]; intros acc.
  - left. exists acc. split; [done |]. split; [apply bus_update_refl |].
    split; [done |]. intros bus Hbus. by apply elem_of_nil in Hbus.
  - rewrite foldM_cons. unfold add_bus at 2 4.
    destruct (get_component_cases (membership_3 bus) acc.1)
      as [[Hstored [c ->]] | [Hno ->]].
    + cbn [mbind result_bind].
      set (acc1 := (mkBuild (alter (set_bus (membership_3 bus)) i (components acc.1))
                      (time_series acc.1) (build_log acc.1), acc.2)).
      assert (bus_update acc.1 acc1.1) as Hup by apply bus_update_set_bus.
      destruct (IH acc1) as [(acc' & Hloop & Hup' & Hother & Hok)
                            | (Hloop & bad & Hbad & Hnot & Hfourth)].
      * left. exists acc'. split; [done |].
        split; [by apply bus_update_trans with acc1.1 |]. split.
        -- intros j Hj. rewrite Hother by done. simpl.
           by rewrite list_lookup_alter_ne.
        -- intros bus' Hbus'. apply elem_of_cons in Hbus' as [-> | Hbus'];
             [by left |].
           destruct (Hok bus' Hbus') as [Hs | Hs]; [left | by right].
           by apply (bus_update_stored acc.1 acc1.1).
      * right. split; [done |]. exists bad.
        split; [by apply list_elem_of_further |]. split; [| done].
        intros Hs. apply Hnot. by apply (bus_update_stored acc.1 acc1.1).
    + destruct (buses !! 3%nat) as [fourth|] eqn:Hfourth.
      * cbn [mbind result_bind].
        destruct (IH (acc.1, acc.2 ++ [SkippingMembership name fourth]))
          as [(acc' & Hloop & Hup' & Hother & Hok)
             | (Hloop & bad & Hbad & Hnot & Habs)].
        -- left. exists acc'. split; [done |]. split; [done |]. split; [done |].
           intros bus' Hbus'. apply elem_of_cons in Hbus' as [-> | Hbus'];
             [by right | by apply Hok].
        -- congruence.
      * right. split; [done |]. exists bus. split; [apply list_elem_of_here | done].
Qed.

(** On buses that are not stored, the loop sets no bus. *)
Lemma add_bus_loop_none_stored (rest : list Membership)
    (acc acc' : Build * list skipped_membership) :
  (forall bus, bus ∈ rest -> ~ stored_bus acc.1 (membership_3 bus)) ->
  foldM (add_bus buses name i) acc rest = Ok acc' ->
  acc'.1 = acc.1.
Proof.
  revert acc. induction rest as [|bus rest IH]; intros acc Hnone H.
  - by injection H as <-.
  - rewrite foldM_cons in H. unfold add_bus at 2 in H.
    destruct (get_component_cases (membership_3 bus) acc.1)
      as [[Hstored _] | [_ Hget]].
    { exfalso. apply (Hnone bus); [apply list_elem_of_here | done]. }
    rewrite Hget in H.
    destruct (buses !! 3%nat) as [fourth|]; [| done].
    cbn [mbind result_bind] in H. apply IH in H; [done |].
    intros bus' Hbus'. apply Hnone. by apply list_elem_of_further.
Qed.

(** The last bus that is stored is the bus of the component. *)
Lemma add_bus_loop_last_stored (before after : list Membership) (bus : Membership)
    (acc acc' : Build * list skipped_membership) (c : Component) :
  components acc.1 !! i = Some c ->
  stored_bus acc.1 (membership_3 bus) ->
  (forall bus', bus' ∈ after -> ~ stored_bus acc.1 (membership_3 bus')) ->
  foldM (add_bus buses name i) acc (before ++ bus :: after) = Ok acc' ->
  exists c', components acc'.1 !! i = Some c'
             /\ component_fields c' !! "bus" = Some (FRef (membership_3 bus)).
Proof.
  intros Hc Hstored Hafter H. rewrite foldM_app in H.
  destruct (add_bus_loop before acc) as [(acc1 & Hloop & Hup & _ & _) | (Hloop & _)];
    rewrite Hloop in H; [| done].
  cbn [mbind result_bind] in H. rewrite foldM_cons in H. unfold add_bus at 2 in H.
  destruct (get_component_cases (membership_3 bus) acc1.1)
    as [[_ [bus_object Hget]] | [Hno _]].
  2: { exfalso. apply Hno. by apply (bus_update_stored acc.1 acc1.1). }
  rewrite Hget in H. cbn [mbind result_bind] in H.
  set (acc2 := (mkBuild (alter (set_bus (membership_3 bus)) i (components acc1.1))
                  (time_series acc1.1) (build_log acc1.1), acc1.2)) in H.
  assert (bus_update acc.1 acc2.1) as Hup2.
  { apply bus_update_trans with acc1.1; [done | apply bus_update_set_bus]. }
  apply add_bus_loop_none_stored in H.
  2: { intros bus' Hbus' Hs. apply (Hafter bus' Hbus').
       by apply (bus_update_stored acc.1 acc2.1). }
  rewrite H. simpl. rewrite list_lookup_alter_eq.
  destruct Hup as (_ & _ & Hcs).
  destruct (Forall2_lookup_l _ _ _ _ _ Hcs Hc) as (c1 & -> & _).
  exists (set_bus (membership_3 bus) c1). split; [done |].
  simpl. apply lookup_insert_eq.
Qed.

End BusesOfAComponent.

Section BusesOfTheComponents.

Variable is_member : Component -> bool.
Variable memberships : list Membership.

(** The loop over the components, from any position of the system. *)
Lemma add_buses_loop (rest : list (nat * Component))
    (acc : Build * list skipped_membership) :
  (exists acc',
      foldM
        (fun acc component =>
           if is_member component.2 then
             foldM (add_bus (buses_of memberships component.2)
                      (component_name component.2) component.1)
               acc (buses_of memberships component.2)
           else Ok acc)
        acc rest = Ok acc'
      /\ bus_update acc.1 acc'.1
      /\ (forall j, j ∉ rest.*1 -> components acc'.1 !! j = components acc.1 !! j)
      /\ (forall component, component ∈ rest -> is_member component.2 = true ->
            forall bus, bus ∈ buses_of memberships component.2 ->
              stored_bus acc.1 (membership_3 bus)
              \/ (4 <= length (buses_of memberships component.2))%nat))
  \/ (foldM
        (fun acc component =>
           if is_member component.2 then
             foldM (add_bus (buses_of memberships component.2)
                      (component_name component.2) component.1)
               acc (buses_of memberships component.2)
           else Ok acc)
        acc rest = Raise IndexError
      /\ exists component bus,
           component ∈ rest /\ is_member component.2 = true
           /\ bus ∈ buses_of memberships component.2
           /\ ~ stored_bus acc.1 (membership_3 bus)
           /\ (length (buses_of memberships component.2) < 4)%nat).
Proof.
  revert acc. induction rest as [|[i c] rest IH]; intros acc.
  - left. exists acc. split; [done |]. split; [apply bus_update_refl |].
    split; [done |]. intros component Hin. by apply elem_of_nil in Hin.
  - rewrite foldM_cons. cbn [fst snd].
    destruct (is_member c) eqn:Hmember.
    + destruct (add_bus_loop (buses_of memberships c) (component_name c) i
                  (buses_of memberships c) acc)
        as [(acc1 & -> & Hup & Hother & Hok) | (-> & bad & Hbad & Hnot & Hfourth)].
      * cbn [mbind result_bind].
        destruct (IH acc1) as [(acc' & Hloop & Hup' & Hother' & Hok')
                              | (Hloop & component & bad & Hin & Hm & Hbad & Hnot & Hlen)].
        -- left. exists acc'. split; [done |].
           split; [by apply bus_update_trans with acc1.1 |]. split.
           ++ intros j Hj. rewrite fmap_cons in Hj.
              apply not_elem_of_cons in Hj as [Hne Hj].
              rewrite Hother' by done. by apply Hother.
           ++ intros component Hin Hm bus Hbus.
              apply elem_of_cons in Hin as [-> | Hin].
              ** destruct (Hok bus Hbus) as [Hs | Hs]; [by left | right].
                 by apply lookup_lt_is_Some in Hs.
              ** destruct (Hok' component Hin Hm bus Hbus) as [Hs | Hs]; [left | by right].
                 by apply (bus_update_stored acc.1 acc1.1).
        -- right. split; [done |]. exists component, bad.
           split; [by apply list_elem_of_further |]. split; [done |].
           split; [done |]. split; [| done].
           intros Hs. apply Hnot. by apply (bus_update_stored acc.1 acc1.1).
      * right. split; [done |]. exists (i, c), bad.
        split; [apply list_elem_of_here |]. split; [done |]. split; [done |].
        split; [done |]. apply lookup_ge_None in Hfourth. simpl. lia.
    + cbn [mbind result_bind].
      destruct (IH acc) as [(acc' & Hloop & Hup' & Hother' & Hok')
                           | (Hloop & component & bad & Hin & Hm & Hbad & Hnot & Hlen)].
      * left. exists acc'. split; [done |]. split; [done |]. split.
        -- intros j Hj. rewrite fmap_cons in Hj.
           apply not_elem_of_cons in Hj as [_ Hj]. by apply Hother'.
        -- intros component Hin Hm bus Hbus.
           apply elem_of_cons in Hin as [-> | Hin]; [| by apply Hok'].
           simpl in Hm. congruence.
      * right. split; [done |]. exists component, bad.
        split; [by apply list_elem_of_further | done].
Qed.

(** X21.  The stage that gives the generators, or the batteries, their
    buses runs to its end exactly when every bus of every component of
    the class is stored in the system, or belongs to a component with
    four buses or more; on any other system it raises [IndexError], from
    the handler of the bus that is not stored. *)
Theorem add_buses_returns_or_raises_index_error (b : Build) :
  ((exists r, add_buses is_member memberships b = Ok r)
   /\ buses_stored_or_four is_member memberships b)
  \/ (add_buses is_member memberships b = Raise IndexError
      /\ ~ buses_stored_or_four is_member memberships b).
Proof.
  unfold add_buses.
  destruct (add_buses_loop (imap pair (components b)) (b, []))
    as [(acc' & Hloop & _ & _ & Hok)
       | (Hloop & [i c] & bad & Hin & Hm & Hbad & Hnot & Hlen)].
  - left. split; [by exists acc' |].
    intros c Hc Hm bus Hbus.
    apply list_elem_of_lookup in Hc as [i Hi].
    apply (Hok (i, c)); [| done | done].
    by apply (elem_of_lookup_imap_2 pair (components b) c i).
  - right. split; [done |]. intros Hall.
    apply elem_of_lookup_imap_1 in Hin as (i' & c' & [= -> ->] & Hi).
    destruct (Hall c' (list_elem_of_lookup_2 _ _ _ Hi) Hm bad Hbad) as [Hs | Hl];
      [done | simpl in Hlen; lia].
Qed.

(** X22.  When the stage returns, the system holds the same components
    in the same order, each with the same class and the same fields
    beside its bus, and the same series; a component outside the class,
    and a component none of whose buses is stored, is as it was. *)
Theorem add_buses_sets_buses_only (b b' : Build) (skipped : list skipped_membership) :
  add_buses is_member memberships b = Ok (b', skipped) ->
  bus_update b b'
  /\ forall i c, components b !! i = Some c ->
       is_member c = false
       \/ (forall bus, bus ∈ buses_of memberships c -> ~ stored_bus b (membership_3 bus)) ->
       components b' !! i = Some c.
Proof.
  unfold add_buses. intros H. split.
  - destruct (add_buses_loop (imap pair (components b)) (b, []))
      as [(acc' & Hloop & Hup & _) | (Hloop & _)]; rewrite Hloop in H; [| done].
    by injection H as ->.
  - intros i c Hi Hc.
    assert (imap pair (components b)
            = imap pair (take i (components b))
              ++ (i, c) :: imap (pair ∘ Nat.add (S i)) (drop (S i) (components b))) as Hsplit.
    { rewrite <- (take_drop_middle _ _ _ Hi) at 1.
      rewrite imap_app, imap_cons.
      assert (length (take i (components b)) = i) as ->.
      { rewrite length_take. apply lookup_lt_Some in Hi. lia. }
      rewrite Nat.add_0_r. do 2 f_equal.
      apply imap_ext. intros j x _. simpl. f_equal. lia. }
    rewrite Hsplit, foldM_app in H.
    destruct (add_buses_loop (imap pair (take i (components b))) (b, []))
      as [(acc1 & Hloop1 & Hup1 & Hother1 & _) | (Hloop1 & _)];
      rewrite Hloop1 in H; [| done].
    cbn [mbind result_bind] in H. rewrite foldM_cons in H. cbn [fst snd] in H.
    assert (components acc1.1 !! i = Some c) as Hi1.
    { rewrite Hother1; [done |]. simpl.
      intros Hin. apply list_elem_of_fmap in Hin as ([j x] & -> & Hin).
      apply elem_of_lookup_imap_1 in Hin as (j' & x' & [= -> ->] & Hj).
      apply lookup_lt_Some in Hj. rewrite length_take in Hj. simpl in Hj. lia. }
    assert (exists acc2,
               (if is_member c then
                  foldM (add_bus (buses_of memberships c) (component_name c) i)
                    acc1 (buses_of memberships c)
                else Ok acc1) = Ok acc2
               /\ acc2.1 = acc1.1) as (acc2 & Hstep & Hsame).
    { destruct (is_member c) eqn:Hm.
      - destruct Hc as [Hc | Hc]; [done |].
        destruct (foldM _ acc1 (buses_of memberships c)) as [acc2|e] eqn:Hinner; [| done].
        exists acc2. split; [done |].
        apply add_bus_loop_none_stored in Hinner; [done |].
        intros bus Hbus Hs. apply (Hc bus Hbus).
        by apply (bus_update_stored b acc1.1).
      - by exists acc1. }
    rewrite Hstep in H. cbn [mbind result_bind] in H.
    destruct (add_buses_loop (imap (pair ∘ Nat.add (S i)) (drop (S i) (components b))) acc2)
      as [(acc3 & Hloop3 & _ & Hother3 & _) | (Hloop3 & _)];
      rewrite Hloop3 in H; [| done].
    injection H as ->. cbn [fst] in Hother3. rewrite Hother3, Hsame; [done |].
    intros Hin. apply list_elem_of_fmap in Hin as ([j x] & Hj & Hin).
    apply elem_of_lookup_imap_1 in Hin as (j' & x' & [= -> ->] & _).
    simpl in Hj. lia.
Qed.

(** X23.  When the stage returns, a component of the class has for its
    bus the last of its buses that is stored in the system. *)
Theorem add_buses_last_stored_bus (b b' : Build) (skipped : list skipped_membership)
    (i : nat) (c : Component) (before after : list Membership) (bus : Membership) :
  add_buses is_member memberships b = Ok (b', skipped) ->
  components b !! i = Some c ->
  is_member c = true ->
  buses_of memberships c = before ++ bus :: after ->
  stored_bus b (membership_3 bus) ->
  (forall bus', bus' ∈ after -> ~ stored_bus b (membership_3 bus')) ->
  exists c', components b' !! i = Some c'
             /\ same_but_bus c c'
             /\ component_fields c' !! "bus" = Some (FRef (membership_3 bus)).
Proof.
  unfold add_buses. intros H Hi Hm Hbuses Hstored Hafter.
  assert (bus_update b b') as Hup.
  { destruct (add_buses_loop (imap pair (components b)) (b, []))
      as [(acc' & Hloop & Hup & _) | (Hloop & _)]; rewrite Hloop in H; [| done].
    by injection H as ->. }
  assert (imap pair (components b)
          = imap pair (take i (components b))
            ++ (i, c) :: imap (pair ∘ Nat.add (S i)) (drop (S i) (components b))) as Hsplit.
  { rewrite <- (take_drop_middle _ _ _ Hi) at 1.
    rewrite imap_app, imap_cons.
    assert (length (take i (components b)) = i) as ->.
    { rewrite length_take. apply lookup_lt_Some in Hi. lia. }
    rewrite Nat.add_0_r. do 2 f_equal.
    apply imap_ext. intros j x _. simpl. f_equal. lia. }
  rewrite Hsplit, foldM_app in H.
  destruct (add_buses_loop (imap pair (take i (components b))) (b, []))
    as [(acc1 & Hloop1 & Hup1 & Hother1 & _) | (Hloop1 & _)];
    rewrite Hloop1 in H; [| done].
  cbn [mbind result_bind] in H. rewrite foldM_cons in H. cbn [fst snd] in H.
  rewrite Hm in H.
  assert (exists c1, components acc1.1 !! i = Some c1) as [c1 Hi1].
  { destruct Hup1 as (_ & _ & Hcs).
    destruct (Forall2_lookup_l _ _ _ _ _ Hcs Hi) as (c1 & Hc1 & _). by exists c1. }
  destruct (foldM _ acc1 (buses_of memberships c)) as [acc2|e] eqn:Hinner; [| done].
  cbn [mbind result_bind] in H.
  rewrite Hbuses in Hinner at 2.
  apply (add_bus_loop_last_stored _ _ _ before after bus acc1 acc2 c1 Hi1) in Hinner.
  2: { by apply (bus_update_stored b acc1.1). }
  2: { intros bus' Hbus' Hs. apply (Hafter bus' Hbus').
       by apply (bus_update_stored b acc1.1). }
  destruct Hinner as (c2 & Hi2 & Hbus2).
  destruct (add_buses_loop (imap (pair ∘ Nat.add (S i)) (drop (S i) (components b))) acc2)
    as [(acc3 & Hloop3 & _ & Hother3 & _) | (Hloop3 & _)];
    rewrite Hloop3 in H; [| done].
  injection H as ->. cbn [fst] in Hother3.
  assert (components b' !! i = Some c2) as Hi'.
  { rewrite Hother3; [done |].
    intros Hin. apply list_elem_of_fmap in Hin as ([j x] & Hj & Hin).
    apply elem_of_lookup_imap_1 in Hin as (j' & x' & [= -> ->] & _).
    simpl in Hj. lia. }
  exists c2. split; [done |]. split; [| done].
  destruct Hup as (_ & _ & Hcs).
  destruct (Forall2_lookup_l _ _ _ _ _ Hcs Hi) as (c' & Hc' & Hsame).
  rewrite Hi' in Hc'. by injection Hc' as <-.
Qed.

End BusesOfTheComponents.

Lemma add_buses_sets_buses_only_witness :
  exists b',
    _add_buses_to_batteries Sample.config Sample.bat1_at_bus1 Sample.bus_and_battery
    = Ok (b', [])
    /\ bus_update Sample.bus_and_battery b'
    /\ components b' !! 0%nat = Some Sample.bus1.
Proof.
  eexists. split; [vm_compute; reflexivity |].
  match goal with
  | |- bus_update _ ?b' /\ _ =>
      assert (_add_buses_to_batteries Sample.config Sample.bat1_at_bus1
                Sample.bus_and_battery = Ok (b', [])) as H
        by (vm_compute; reflexivity)
  end.
  unfold _add_buses_to_batteries in H.
  destruct (add_buses_sets_buses_only _ _ _ _ _ H) as [Hup Hsame].
  split; [exact Hup |].
  apply (Hsame 0%nat Sample.bus1); [reflexivity | by left].
Defined.

Lemma add_buses_last_stored_bus_witness :
  exists b',
    _add_buses_to_batteries Sample.config Sample.bat1_at_bus1 Sample.bus_and_battery
    = Ok (b', [])
    /\ exists c', components b' !! 1%nat = Some c'
                  /\ same_but_bus Sample.bat1 c'
                  /\ component_fields c' !! "bus" = Some (FRef "bus1").
Proof.
  eexists. split; [vm_compute; reflexivity |].
  match goal with
  | |- exists c', components ?b' !! _ = _ /\ _ =>
      assert (_add_buses_to_batteries Sample.config Sample.bat1_at_bus1
                Sample.bus_and_battery = Ok (b', [])) as H
        by (vm_compute; reflexivity)
  end.
  unfold _add_buses_to_batteries in H.
  apply (add_buses_last_stored_bus _ _ _ _ _ 1 Sample.bat1 [] []
           (mkMembership "bat1" "bus1") H).
  - reflexivity.
  - reflexivity.
  - reflexivity.
  - exists Sample.bus1. split; [apply list_elem_of_here | by split].
  - intros bus' Hbus'. by apply elem_of_nil in Hbus'.
Defined.
